(** * IceDeck V2 firmware: a shallow embedding of [Firmware/main.py]

    The embedding follows the Python source class by class:
    [MatrixScanner] (debounced key matrix), [EncoderController] (rotary
    encoder with push button), [DisplayController] (SSD1306 views) and the
    body of the [while True] loop of [main].

    Conventions of the model.
    - Time.  [time.monotonic()] is a number of seconds; the model counts
      in milliseconds with [Z], so the literals [1.0] and [0.8] of [main]
      read [1000] and [800], and [time.monotonic() * 1000] of
      [MatrixScanner.scan] is the clock reading itself.  Rounding of the
      interpreter's floats is outside the model.
    - Hardware.  A read of a pin, of the encoder position or of the switch
      either returns a value or raises; it is the [outcome] supplied by
      the environment for that read.
    - Output.  Calls to [keyboard.write] and the frames handed to the
      display are collected in a list of [effect]s; [print] is not
      recorded.
    - Two levels.  [scan], [main_keys], [main_encoder], [main_tick],
      [main_loop] and [run] describe the code on the condition that the
      writes of the column pins, [time.sleep] and [keyboard.write], which
      the source calls outside any [try] block, return ([print] is taken
      to return throughout).  [scan_hw], [main_keys_hw], [main_encoder_hw],
      [main_tick_hw], [main_loop_hw] and [run_hw] take the outcome of
      each of these calls from the environment as well; where all of
      them return, the two levels agree ([scan_hw_returning],
      [main_tick_hw_returning]).  Statements about a scan or a pass
      completing are made at the second level. *)

From Stdlib Require Import ZArith Bool String Sorted Lia.
From stdpp Require Import base option list.

Local Open Scope Z_scope.

(** ** Exceptions and results of calls *)

(** The two classes of exception the source tells apart: [except Exception]
    catches [PyException] (any [Exception], such as [IndexError],
    [OSError], [ImportError]) and lets [KeyboardInterrupt] through. *)
Inductive exn : Type :=
  | KeyboardInterrupt
  | PyException.

Inductive outcome (A : Type) : Type :=
  | Returns (a : A)
  | Raises (e : exn).

Arguments Returns {A} a.
Arguments Raises {A} e.

Definition bind {A B : Type} (m : outcome A) (k : A -> outcome B) : outcome B :=
  match m with
  | Returns a => k a
  | Raises e => Raises e
  end.

Notation "'try!' x <- m 'in' k" := (bind m (fun x => k))
  (at level 10, x pattern, m at level 100, k at level 200).

(** ** Configuration constants *)

Definition MATRIX_ROWS : nat := 3.
Definition MATRIX_COLS : nat := 3.
Definition DEBOUNCE_MS : Z := 20.
Definition ENCODER_ENABLED : bool := true.
Definition DISPLAY_ENABLED : bool := true.

(** GPIO numbers of the row and column pins ([board.GP26], ...). *)
Definition ROW_PINS : list nat := [26; 27; 28]%nat.
Definition COL_PINS : list nat := [1; 2; 4]%nat.

(** ** Lists of lists indexed by (row, col) *)

(** [m[r][c]] for indices the loops of [scan] produce.  Python raises
    [IndexError] out of range; [scan] only uses indices below the
    dimensions the tables were built with (see [wf]), where [get2] is the
    stored value. *)
Definition get2 {A : Type} (d : A) (m : list (list A)) (r c : nat) : A :=
  match m !! r with
  | Some row => match row !! c with Some x => x | None => d end
  | None => d
  end.

(** [m[r][c] = v]. *)
Definition set2 {A : Type} (m : list (list A)) (r c : nat) (v : A) : list (list A) :=
  alter (fun row => <[c := v]> row) r m.

Definition dims {A : Type} (rows cols : nat) (m : list (list A)) : Prop :=
  length m = rows /\ Forall (fun row => length row = cols) m.

(** ** MatrixScanner *)

Record MatrixScanner : Type := mkMatrixScanner {
  debounce_ms : Z;
  num_rows : nat;
  num_cols : nat;
  key_states : list (list bool);
  last_press_time : list (list Z)
}.

(** [MatrixScanner.__init__]: the pin objects are the environment's; the
    tables are [[False] * num_cols] and [[0] * num_cols], one per row. *)
Definition MatrixScanner_init (row_pins col_pins : list nat) (debounce : Z) : MatrixScanner :=
  let rows := length row_pins in
  let cols := length col_pins in
  {| debounce_ms := debounce;
     num_rows := rows;
     num_cols := cols;
     key_states := replicate rows (replicate cols false);
     last_press_time := replicate rows (replicate cols 0) |}.

Definition wf (s : MatrixScanner) : Prop :=
  dims (num_rows s) (num_cols s) (key_states s) /\
  dims (num_rows s) (num_cols s) (last_press_time s).

Definition set_key_state (s : MatrixScanner) (r c : nat) (v : bool) : MatrixScanner :=
  {| debounce_ms := debounce_ms s;
     num_rows := num_rows s;
     num_cols := num_cols s;
     key_states := set2 (key_states s) r c v;
     last_press_time := last_press_time s |}.

Definition set_last_press_time (s : MatrixScanner) (r c : nat) (t : Z) : MatrixScanner :=
  {| debounce_ms := debounce_ms s;
     num_rows := num_rows s;
     num_cols := num_cols s;
     key_states := key_states s;
     last_press_time := set2 (last_press_time s) r c t |}.

(** The body of the inner loop of [scan] once [row_pin.value] has been
    read as [is_pressed]. *)
Definition scan_cell (current_time : Z) (is_pressed : bool) (row_idx col_idx : nat)
    (s : MatrixScanner) (pressed_keys : list (nat * nat))
    : MatrixScanner * list (nat * nat) :=
  if is_pressed && negb (get2 false (key_states s) row_idx col_idx) then
    if debounce_ms s <? current_time - get2 0 (last_press_time s) row_idx col_idx then
      (set_last_press_time (set_key_state s row_idx col_idx true) row_idx col_idx current_time,
       pressed_keys ++ [(row_idx, col_idx)])
    else (s, pressed_keys)
  else if negb is_pressed && get2 false (key_states s) row_idx col_idx then
    if debounce_ms s <? current_time - get2 0 (last_press_time s) row_idx col_idx then
      (set_key_state s row_idx col_idx false, pressed_keys)
    else (s, pressed_keys)
  else (s, pressed_keys).

(** [for row_idx, row_pin in enumerate(self.rows)] for one column.  A read
    that raises leaves the loop, and [scan], at once. *)
Fixpoint scan_rows (current_time : Z) (raw : nat -> nat -> outcome bool) (col_idx : nat)
    (rows : list nat) (s : MatrixScanner) (pressed_keys : list (nat * nat))
    : outcome (MatrixScanner * list (nat * nat)) :=
  match rows with
  | [] => Returns (s, pressed_keys)
  | row_idx :: rows' =>
      try! is_pressed <- raw row_idx col_idx in
      let '(s', pressed_keys') := scan_cell current_time is_pressed row_idx col_idx s pressed_keys in
      scan_rows current_time raw col_idx rows' s' pressed_keys'
  end.

(** [for col_idx, col_pin in enumerate(self.cols)], with
    [col_pin.value = True], [time.sleep(0.0001)] and
    [col_pin.value = False] taken to return ([scan_cols_hw] has them). *)
Fixpoint scan_cols (current_time : Z) (raw : nat -> nat -> outcome bool)
    (cols : list nat) (s : MatrixScanner) (pressed_keys : list (nat * nat))
    : outcome (MatrixScanner * list (nat * nat)) :=
  match cols with
  | [] => Returns (s, pressed_keys)
  | col_idx :: cols' =>
      try! (s', pressed_keys') <-
        scan_rows current_time raw col_idx (seq 0 (num_rows s)) s pressed_keys in
      scan_cols current_time raw cols' s' pressed_keys'
  end.

(** [MatrixScanner.scan].  [current_time] is [time.monotonic() * 1000];
    [raw row col] is what [row_pin.value] gives while column [col] is
    driven high.  The result is the scanner after the pass and the list
    [pressed_keys]. *)
Definition scan (s : MatrixScanner) (current_time : Z) (raw : nat -> nat -> outcome bool)
    : outcome (MatrixScanner * list (nat * nat)) :=
  scan_cols current_time raw (seq 0 (num_cols s)) s [].

(** ** EncoderController *)

Record EncoderController : Type := mkEncoderController {
  enabled : bool;
  last_position : Z;
  last_switch_state : bool
}.

(** [EncoderController.__init__].  [hw_encoder] and [hw_switch] are the
    outcomes of [rotaryio.IncrementalEncoder(...)] and of setting up the
    switch pin.  On the [except] path only [enabled] is assigned; the two
    other attributes are never read while [enabled] is false, and the
    record carries their start values there. *)
Definition EncoderController_init (hw_encoder hw_switch : outcome unit)
    : outcome EncoderController :=
  let on_exception :=
    {| enabled := false; last_position := 0; last_switch_state := true |} in
  match hw_encoder with
  | Raises KeyboardInterrupt => Raises KeyboardInterrupt
  | Raises PyException => Returns on_exception
  | Returns _ =>
      match hw_switch with
      | Raises KeyboardInterrupt => Raises KeyboardInterrupt
      | Raises PyException => Returns on_exception
      | Returns _ =>
          Returns {| enabled := true; last_position := 0; last_switch_state := true |}
      end
  end.

(** The hardware attributes [update] reads, in the order it reads them. *)
Inductive hw_access : Type :=
  | ReadPosition
  | ReadSwitch.

(** What one call of [update] leaves behind: the controller, the pair it
    returns (or the exception it lets through) and the reads it made. *)
Record poll : Type := mkPoll {
  poll_state : EncoderController;
  poll_result : outcome (Z * bool);
  poll_reads : list hw_access
}.

(** [EncoderController.update].  [position] and [switch] are the outcomes
    the reads of [self.encoder.position] and [self.switch.value] have if
    they are made.  The [try] block is left at the first read that raises;
    [except Exception] then returns the pair built so far. *)
Definition update (e : EncoderController) (position : outcome Z) (switch : outcome bool)
    : poll :=
  if negb (enabled e) then mkPoll e (Returns (0, false)) []
  else
    match position with
    | Raises KeyboardInterrupt => mkPoll e (Raises KeyboardInterrupt) [ReadPosition]
    | Raises PyException => mkPoll e (Returns (0, false)) [ReadPosition]
    | Returns current_position =>
        let '(rotation, e1) :=
          if last_position e <? current_position then
            (1, {| enabled := enabled e; last_position := current_position;
                   last_switch_state := last_switch_state e |})
          else if current_position <? last_position e then
            (-1, {| enabled := enabled e; last_position := current_position;
                    last_switch_state := last_switch_state e |})
          else (0, e) in
        match switch with
        | Raises KeyboardInterrupt =>
            mkPoll e1 (Raises KeyboardInterrupt) [ReadPosition; ReadSwitch]
        | Raises PyException =>
            mkPoll e1 (Returns (rotation, false)) [ReadPosition; ReadSwitch]
        | Returns current_switch =>
            let '(button_pressed, e2) :=
              if negb current_switch && last_switch_state e1 then
                (true, {| enabled := enabled e1; last_position := last_position e1;
                          last_switch_state := current_switch |})
              else if current_switch && negb (last_switch_state e1) then
                (false, {| enabled := enabled e1; last_position := last_position e1;
                           last_switch_state := current_switch |})
              else (false, e1) in
            mkPoll e2 (Returns (rotation, button_pressed)) [ReadPosition; ReadSwitch]
        end
    end.

(** Consecutive calls of [update], one per pair of read outcomes, up to the
    first call that lets an exception through. *)
Fixpoint updates (e : EncoderController) (reads : list (outcome Z * outcome bool))
    : list poll :=
  match reads with
  | [] => []
  | (position, switch) :: reads' =>
      let p := update e position switch in
      p :: match poll_result p with
           | Returns _ => updates (poll_state p) reads'
           | Raises _ => []
           end
  end.

(** ** Keys and keymap *)

(** The members of kmk's [KC] the firmware names.  [LCTRL], [LALT] and
    [RCTRL] wrap a key into a chord. *)
Module KC.
Inductive key : Type :=
  | MEDIA_PREV_TRACK | MEDIA_PLAY_PAUSE | MEDIA_NEXT_TRACK
  | BRIGHTNESS_DOWN | BRIGHTNESS_UP
  | NO | M | D | SLASH
  | AUDIO_VOL_UP | AUDIO_VOL_DOWN | AUDIO_MUTE
  | LCTRL (k : key) | LALT (k : key) | RCTRL (k : key).
End KC.

(** [keyboard.keymap] of [main.py]: one layer of nine keys. *)
Definition keyboard_keymap : list (list KC.key) :=
  [ [ KC.MEDIA_PREV_TRACK; KC.MEDIA_PLAY_PAUSE; KC.MEDIA_NEXT_TRACK;
      KC.BRIGHTNESS_DOWN; KC.NO; KC.BRIGHTNESS_UP;
      KC.LCTRL (KC.LALT KC.M); KC.LCTRL (KC.LALT KC.D); KC.LCTRL (KC.LALT KC.SLASH) ] ].

(** [KEYMAPS] of [kb.py]. *)
Definition KEYMAPS : list (list KC.key) :=
  [ [ KC.MEDIA_PREV_TRACK; KC.MEDIA_PLAY_PAUSE; KC.MEDIA_NEXT_TRACK;
      KC.BRIGHTNESS_UP; KC.NO; KC.BRIGHTNESS_DOWN;
      KC.RCTRL KC.M; KC.RCTRL KC.D; KC.LCTRL (KC.LALT KC.SLASH) ] ].

(** Python's [l[i]] on a list or tuple: a negative index counts from the
    end, an index outside [-len, len) raises [IndexError]. *)
Definition py_index {A : Type} (l : list A) (i : Z) : outcome A :=
  let j := if i <? 0 then i + Z.of_nat (length l) else i in
  if j <? 0 then Raises PyException
  else match l !! Z.to_nat j with
       | Some x => Returns x
       | None => Raises PyException
       end.

(** ** Display *)

(** The text of a status line: [f"{key}"], kmk's rendering of a key, kept
    symbolic, or a string literal of the source. *)
Inductive label : Type :=
  | KeyRepr (k : KC.key)
  | Literal (s : string).

(** The frames the firmware draws. *)
Inductive view : Type :=
  | Startup
  | Clock
  | Status (layer : Z) (encoder_val : Z) (last_key : option label).

Inductive effect : Type :=
  | KeyboardWrite (k : KC.key)
  | DisplayShow (v : view).

(** Code that emits effects and may raise: the effects emitted so far are
    kept when it raises. *)
Definition io (A : Type) : Type := (list effect * outcome A)%type.

Definition ret {A : Type} (a : A) : io A := ([], Returns a).

(** An effect that takes place and returns; [write_key] is the call of
    [keyboard.write] that may raise instead. *)
Definition emit (fx : effect) : io unit := ([fx], Returns tt).

Definition lift {A : Type} (m : outcome A) : io A := ([], m).

Definition io_bind {A B : Type} (m : io A) (k : A -> io B) : io B :=
  match m with
  | (fx, Returns a) => let '(fx', r) := k a in (fx ++ fx', r)
  | (fx, Raises e) => (fx, Raises e)
  end.

Notation "'do!' x <- m 'in' k" := (io_bind m (fun x => k))
  (at level 10, x pattern, m at level 100, k at level 200).

Record DisplayController : Type := mkDisplayController {
  display_enabled : bool
}.

(** [DisplayController.__init__]: [hw_display] is the outcome of opening
    the bus, importing the driver and clearing the panel. *)
Definition DisplayController_init (hw_display : outcome unit) : outcome DisplayController :=
  match hw_display with
  | Returns _ => Returns {| display_enabled := true |}
  | Raises PyException => Returns {| display_enabled := false |}
  | Raises KeyboardInterrupt => Raises KeyboardInterrupt
  end.

(** The common shape of [show_startup], [show_time] and [show_status]:
    nothing when disabled; otherwise the [try] block builds the frame and
    hands it to the panel, and [except Exception] swallows a failure.
    [draw] is the outcome of that block. *)
Definition show (d : DisplayController) (draw : outcome unit) (v : view) : io unit :=
  if negb (display_enabled d) then ret tt
  else match draw with
       | Returns _ => emit (DisplayShow v)
       | Raises PyException => ret tt
       | Raises KeyboardInterrupt => lift (Raises KeyboardInterrupt)
       end.

Definition show_startup (d : DisplayController) (draw : outcome unit) : io unit :=
  show d draw Startup.

Definition show_time (d : DisplayController) (draw : outcome unit) : io unit :=
  show d draw Clock.

Definition show_status (d : DisplayController) (draw : outcome unit)
    (layer encoder_val : Z) (last_key : option label) : io unit :=
  show d draw (Status layer encoder_val last_key).

(** ** The control loop *)

(** The module-level objects and variables [main] works on, and its local
    [last_time_update]. *)
Record Main : Type := mkMain {
  matrix_scanner : MatrixScanner;
  encoder : EncoderController;
  display : DisplayController;
  keymap : list (list KC.key);
  current_layer : Z;
  current_encoder_value : Z;
  last_key_pressed : option label;
  last_time_update : Z
}.

Definition set_matrix_scanner (m : Main) (s : MatrixScanner) : Main :=
  mkMain s (encoder m) (display m) (keymap m) (current_layer m)
         (current_encoder_value m) (last_key_pressed m) (last_time_update m).

Definition set_encoder (m : Main) (e : EncoderController) : Main :=
  mkMain (matrix_scanner m) e (display m) (keymap m) (current_layer m)
         (current_encoder_value m) (last_key_pressed m) (last_time_update m).

Definition set_current_encoder_value (m : Main) (v : Z) : Main :=
  mkMain (matrix_scanner m) (encoder m) (display m) (keymap m) (current_layer m)
         v (last_key_pressed m) (last_time_update m).

Definition set_last_key_pressed (m : Main) (k : option label) : Main :=
  mkMain (matrix_scanner m) (encoder m) (display m) (keymap m) (current_layer m)
         (current_encoder_value m) k (last_time_update m).

Definition set_last_time_update (m : Main) (t : Z) : Main :=
  mkMain (matrix_scanner m) (encoder m) (display m) (keymap m) (current_layer m)
         (current_encoder_value m) (last_key_pressed m) t.

(** What the environment supplies during one pass of the loop: the two
    clock readings ([current_time_check] in seconds turned to ms, and the
    one inside [scan]), the outcome of every hardware read and of the
    drawing code. *)
Record tick : Type := mkTick {
  current_time_check : Z;
  scan_time : Z;
  raw : nat -> nat -> outcome bool;
  position : outcome Z;
  switch : outcome bool;
  draw : outcome unit
}.

(** State at the top of the first pass: the objects built at module level,
    [current_layer = 0], [current_encoder_value = 0],
    [last_key_pressed = None] and [last_time_update = time.monotonic()]. *)
Definition main_init (e : EncoderController) (d : DisplayController) (start : Z) : Main :=
  {| matrix_scanner := MatrixScanner_init ROW_PINS COL_PINS DEBOUNCE_MS;
     encoder := e;
     display := d;
     keymap := keyboard_keymap;
     current_layer := 0;
     current_encoder_value := 0;
     last_key_pressed := None;
     last_time_update := start |}.

(** "Update time display every 1 second". *)
Definition main_clock (m : Main) (i : tick) : io Main :=
  if 1000 <=? current_time_check i - last_time_update m then
    do! _ <- show_time (display m) (draw i) in
    ret (set_last_time_update m (current_time_check i))
  else ret m.

(** [for row, col in pressed_keys], with [keyboard.write] taken to return
    ([main_keys_hw] has the call that may raise). *)
Fixpoint main_keys (m : Main) (i : tick) (pressed_keys : list (nat * nat)) : io Main :=
  match pressed_keys with
  | [] => ret m
  | (row, col) :: pressed_keys' =>
      let key_idx := (row * MATRIX_COLS + col)%nat in
      if current_layer m <? Z.of_nat (length (keymap m)) then
        do! layer <- lift (py_index (keymap m) (current_layer m)) in
        do! key <- lift (py_index layer (Z.of_nat key_idx)) in
        do! _ <- emit (KeyboardWrite key) in
        let m1 := set_last_key_pressed m (Some (KeyRepr key)) in
        do! _ <- show_status (display m1) (draw i) (current_layer m1)
                   (current_encoder_value m1) (last_key_pressed m1) in
        main_keys (set_last_time_update m1 (current_time_check i - 800)) i pressed_keys'
      else main_keys m i pressed_keys'
  end.

(** "Handle encoder", with [keyboard.write] taken to return
    ([main_encoder_hw] has the call that may raise). *)
Definition main_encoder (m : Main) (i : tick) : io Main :=
  if ENCODER_ENABLED then
    let p := update (encoder m) (position i) (switch i) in
    let m0 := set_encoder m (poll_state p) in
    do! (rotation, button_pressed) <- lift (poll_result p) in
    do! m1 <-
      (if 0 <? rotation then
         do! _ <- emit (KeyboardWrite KC.AUDIO_VOL_UP) in
         ret (set_current_encoder_value m0 (current_encoder_value m0 + 1))
       else if rotation <? 0 then
         do! _ <- emit (KeyboardWrite KC.AUDIO_VOL_DOWN) in
         ret (set_current_encoder_value m0 (current_encoder_value m0 - 1))
       else ret m0) in
    if (button_pressed : bool) then
      do! _ <- emit (KeyboardWrite KC.AUDIO_MUTE) in
      do! _ <- show_status (display m1) (draw i) 0 (current_encoder_value m1)
                 (Some (Literal "MUTE")) in
      ret (set_last_time_update m1 (current_time_check i - 800))
    else ret m1
  else ret m.

(** One pass of the body of [while True], with [keyboard.write] and the
    closing [time.sleep(0.001)] taken to return ([main_tick_hw] has
    them). *)
Definition main_tick (m : Main) (i : tick) : io Main :=
  do! m1 <- main_clock m i in
  do! (s, pressed_keys) <- lift (scan (matrix_scanner m1) (scan_time i) (raw i)) in
  do! m2 <- main_keys (set_matrix_scanner m1 s) i pressed_keys in
  main_encoder m2 i.

(** The loop over a finite prefix of passes: it goes on while no pass
    raises. *)
Fixpoint main_loop (m : Main) (ticks : list tick) : io Main :=
  match ticks with
  | [] => ret m
  | i :: ticks' => do! m' <- main_tick m i in main_loop m' ticks'
  end.

(** [main()] for a finite prefix of passes: the start-up frame, then the
    loop from the state [main_init] describes.  ([time.sleep] is not
    modelled.) *)
Definition main (e : EncoderController) (d : DisplayController) (startup_draw : outcome unit)
    (start : Z) (ticks : list tick) : io Main :=
  do! _ <- show_startup d startup_draw in
  main_loop (main_init e d start) ticks.

(** The [if __name__ == '__main__'] guard around [main()]: both handlers
    print and fall off the end of the module, so any exception that leaves
    [main] ends the firmware. *)
Inductive firmware : Type :=
  | Looping (m : Main)
  | Interrupted
  | UnexpectedError.

Definition run (m : Main) (ticks : list tick) : list effect * firmware :=
  match main_loop m ticks with
  | (fx, Returns m') => (fx, Looping m')
  | (fx, Raises KeyboardInterrupt) => (fx, Interrupted)
  | (fx, Raises PyException) => (fx, UnexpectedError)
  end.

(** ** The same code with every unguarded call able to raise *)

(** The outcomes, during one pass of the loop, of the calls that
    [MatrixScanner.scan] and [main] make outside any [try] block besides
    the reads of the row pins: per column [col_pin.value = True],
    [time.sleep(0.0001)] and [col_pin.value = False]; [keyboard.write]
    per key; the closing [time.sleep(0.001)]. *)
Record calls : Type := mkCalls {
  col_high : nat -> outcome unit;
  settle : nat -> outcome unit;
  col_low : nat -> outcome unit;
  key_write : KC.key -> outcome unit;
  tick_sleep : outcome unit
}.

(** All of them return. *)
Definition returning : calls :=
  {| col_high := fun _ => Returns tt;
     settle := fun _ => Returns tt;
     col_low := fun _ => Returns tt;
     key_write := fun _ => Returns tt;
     tick_sleep := Returns tt |}.

(** [for col_idx, col_pin in enumerate(self.cols)] in full: drive the
    column high, sleep, read the rows, drive the column low. *)
Fixpoint scan_cols_hw (current_time : Z) (raw : nat -> nat -> outcome bool) (x : calls)
    (cols : list nat) (s : MatrixScanner) (pressed_keys : list (nat * nat))
    : outcome (MatrixScanner * list (nat * nat)) :=
  match cols with
  | [] => Returns (s, pressed_keys)
  | col_idx :: cols' =>
      try! _ <- col_high x col_idx in
      try! _ <- settle x col_idx in
      try! (s', pressed_keys') <-
        scan_rows current_time raw col_idx (seq 0 (num_rows s)) s pressed_keys in
      try! _ <- col_low x col_idx in
      scan_cols_hw current_time raw x cols' s' pressed_keys'
  end.

(** [MatrixScanner.scan] in full. *)
Definition scan_hw (s : MatrixScanner) (current_time : Z) (raw : nat -> nat -> outcome bool)
    (x : calls) : outcome (MatrixScanner * list (nat * nat)) :=
  scan_cols_hw current_time raw x (seq 0 (num_cols s)) s [].

(** [keyboard.write(key)]: the key reaches the host when the call
    returns; when it raises, the exception leaves [main]. *)
Definition write_key (x : calls) (key : KC.key) : io unit :=
  match key_write x key with
  | Returns _ => emit (KeyboardWrite key)
  | Raises e => lift (Raises e)
  end.

(** [for row, col in pressed_keys] in full. *)
Fixpoint main_keys_hw (x : calls) (m : Main) (i : tick) (pressed_keys : list (nat * nat))
    : io Main :=
  match pressed_keys with
  | [] => ret m
  | (row, col) :: pressed_keys' =>
      let key_idx := (row * MATRIX_COLS + col)%nat in
      if current_layer m <? Z.of_nat (length (keymap m)) then
        do! layer <- lift (py_index (keymap m) (current_layer m)) in
        do! key <- lift (py_index layer (Z.of_nat key_idx)) in
        do! _ <- write_key x key in
        let m1 := set_last_key_pressed m (Some (KeyRepr key)) in
        do! _ <- show_status (display m1) (draw i) (current_layer m1)
                   (current_encoder_value m1) (last_key_pressed m1) in
        main_keys_hw x (set_last_time_update m1 (current_time_check i - 800)) i pressed_keys'
      else main_keys_hw x m i pressed_keys'
  end.

(** "Handle encoder" in full. *)
Definition main_encoder_hw (x : calls) (m : Main) (i : tick) : io Main :=
  if ENCODER_ENABLED then
    let p := update (encoder m) (position i) (switch i) in
    let m0 := set_encoder m (poll_state p) in
    do! (rotation, button_pressed) <- lift (poll_result p) in
    do! m1 <-
      (if 0 <? rotation then
         do! _ <- write_key x KC.AUDIO_VOL_UP in
         ret (set_current_encoder_value m0 (current_encoder_value m0 + 1))
       else if rotation <? 0 then
         do! _ <- write_key x KC.AUDIO_VOL_DOWN in
         ret (set_current_encoder_value m0 (current_encoder_value m0 - 1))
       else ret m0) in
    if (button_pressed : bool) then
      do! _ <- write_key x KC.AUDIO_MUTE in
      do! _ <- show_status (display m1) (draw i) 0 (current_encoder_value m1)
                 (Some (Literal "MUTE")) in
      ret (set_last_time_update m1 (current_time_check i - 800))
    else ret m1
  else ret m.

(** One pass of the body of [while True] in full, down to the closing
    [time.sleep(0.001)]. *)
Definition main_tick_hw (x : calls) (m : Main) (i : tick) : io Main :=
  do! m1 <- main_clock m i in
  do! (s, pressed_keys) <- lift (scan_hw (matrix_scanner m1) (scan_time i) (raw i) x) in
  do! m2 <- main_keys_hw x (set_matrix_scanner m1 s) i pressed_keys in
  do! m3 <- main_encoder_hw x m2 i in
  do! _ <- lift (tick_sleep x) in
  ret m3.

Fixpoint main_loop_hw (m : Main) (ticks : list (tick * calls)) : io Main :=
  match ticks with
  | [] => ret m
  | (i, x) :: ticks' => do! m' <- main_tick_hw x m i in main_loop_hw m' ticks'
  end.

Definition run_hw (m : Main) (ticks : list (tick * calls)) : list effect * firmware :=
  match main_loop_hw m ticks with
  | (fx, Returns m') => (fx, Looping m')
  | (fx, Raises KeyboardInterrupt) => (fx, Interrupted)
  | (fx, Raises PyException) => (fx, UnexpectedError)
  end.

(** ** Observing a cell over consecutive scans *)

(** The debounced state and the timestamp of cell [(r, c)]. *)
Definition pressed (s : MatrixScanner) (r c : nat) : bool :=
  get2 false (key_states s) r c.

Definition press_time (s : MatrixScanner) (r c : nat) : Z :=
  get2 0 (last_press_time s) r c.

(** One scan pass as the environment sees it: the clock reading and the
    pin levels. *)
Definition pass : Type := (Z * (nat -> nat -> outcome bool))%type.

(** The accepted logical transitions of cell [(r, c)] over consecutive
    calls of [scan]: the time of the pass and the state the cell flipped
    to.  The run ends at the first pass that raises. *)
Fixpoint flips (r c : nat) (s : MatrixScanner) (passes : list pass) : list (Z * bool) :=
  match passes with
  | [] => []
  | (t, levels) :: passes' =>
      match scan s t levels with
      | Raises _ => []
      | Returns (s', _) =>
          (if Bool.eqb (pressed s r c) (pressed s' r c) then [] else [(t, pressed s' r c)])
          ++ flips r c s' passes'
      end
  end.

(** Pin levels of a pass in which every read succeeds: [down r c] tells
    whether the switch of the cell is closed. *)
Definition levels_of (down : nat -> nat -> bool) : nat -> nat -> outcome bool :=
  fun r c => Returns (down r c).

Definition all_up : nat -> nat -> bool := fun _ _ => false.

Definition only (r c : nat) : nat -> nat -> bool :=
  fun r' c' => Nat.eqb r r' && Nat.eqb c c'.

(** What [scan_cell] does to the pair (state, timestamp) of the cell it
    visits. *)
Definition cell_step (d t : Z) (is_pressed : bool) (k : bool) (l : Z) : bool * Z :=
  if is_pressed && negb k then
    if d <? t - l then (true, t) else (k, l)
  else if negb is_pressed && k then
    if d <? t - l then (false, l) else (k, l)
  else (k, l).

(** Whether the visit of [(r, c)] appends the cell to [pressed_keys]. *)
Definition press_accepted (s : MatrixScanner) (t : Z) (levels : nat -> nat -> outcome bool)
    (r c : nat) : bool :=
  match levels r c with
  | Returns true => negb (pressed s r c) && (debounce_ms s <? t - press_time s r c)
  | _ => false
  end.

Definition cell (s : MatrixScanner) (r c : nat) : bool * Z :=
  (pressed s r c, press_time s r c).

Definition same_shape (s s' : MatrixScanner) : Prop :=
  debounce_ms s' = debounce_ms s /\ num_rows s' = num_rows s /\ num_cols s' = num_cols s.

(** The cells [scan] appends to [pressed_keys] while it visits the
    columns [cols]: column by column, rows in increasing order. *)
Definition accepted_presses (s : MatrixScanner) (t : Z) (levels : nat -> nat -> outcome bool)
    (cols : list nat) : list (nat * nat) :=
  flat_map (fun c => map (fun r => (r, c))
                         (List.filter (fun r => press_accepted s t levels r c)
                                      (seq 0 (num_rows s)))) cols.

(** The reading of "a cell's [pressed] flips at most once per elapsed
    debounce interval": any two accepted transitions of the cell are at
    least the window [d] apart. *)
Definition one_flip_per_window (d : Z) (l : list (Z * bool)) : Prop :=
  StronglySorted (fun a b => d <= fst b - fst a) l.

(** What the scanner guarantees instead: once a press is accepted, every
    later accepted transition of the cell comes more than [d] after it. *)
Definition spaced_after_press (d : Z) (l : list (Z * bool)) : Prop :=
  StronglySorted (fun a b => snd a = true -> d < fst b - fst a) l.

(** The scanner after cell (0, 0) was accepted as pressed at 100 ms, and
    after its release was accepted at 200 ms. *)
Definition held_00 : MatrixScanner :=
  {| debounce_ms := 20; num_rows := 3; num_cols := 3;
     key_states := [[true; false; false]; [false; false; false]; [false; false; false]];
     last_press_time := [[100; 0; 0]; [0; 0; 0]; [0; 0; 0]] |}.

Definition released_00 : MatrixScanner :=
  {| debounce_ms := 20; num_rows := 3; num_cols := 3;
     key_states := [[false; false; false]; [false; false; false]; [false; false; false]];
     last_press_time := [[100; 0; 0]; [0; 0; 0]; [0; 0; 0]] |}.

(** ** Observing the encoder and the loop *)


Definition clicked (p : poll) : option bool :=
  match poll_result p with
  | Returns (_, button_pressed) => Some button_pressed
  | Raises _ => None
  end.


(** Whether an outcome is the interrupt no handler of the firmware but
    the outermost one catches. *)
Definition interrupts {A : Type} (o : outcome A) : bool :=
  match o with
  | Raises KeyboardInterrupt => true
  | _ => false
  end.

Definition returns {A : Type} (o : outcome A) : bool :=
  match o with
  | Returns _ => true
  | Raises _ => false
  end.

(** Every row-pin read of a scan over a [rows] by [cols] matrix returns. *)
Definition scan_reads_ok (rows cols : nat) (levels : nat -> nat -> outcome bool) : bool :=
  forallb (fun c => forallb (fun r => returns (levels r c)) (seq 0 rows)) (seq 0 cols).

(** The pass raises nothing in the scan and no interrupt elsewhere. *)
Definition tick_ok (rows cols : nat) (i : tick) : bool :=
  scan_reads_ok rows cols (raw i)
  && negb (interrupts (position i))
  && negb (interrupts (switch i))
  && negb (interrupts (draw i)).

(** The active layer is past the end of the keymap, or it exists and has
    an entry at [row * MATRIX_COLS + col] for every cell of the matrix. *)
Definition keymap_covers (m : Main) : bool :=
  (Z.of_nat (length (keymap m)) <=? current_layer m)
  || match py_index (keymap m) (current_layer m) with
     | Returns layer =>
         forallb (fun r =>
                    forallb (fun c => (r * MATRIX_COLS + c <? length layer)%nat)
                            (seq 0 (num_cols (matrix_scanner m))))
                 (seq 0 (num_rows (matrix_scanner m)))
     | Raises _ => false
     end.

(** The controller a successful [__init__] builds, and the one the
    [except] path leaves. *)
Definition encoder_ready : EncoderController :=
  {| enabled := true; last_position := 0; last_switch_state := true |}.

Definition encoder_disabled : EncoderController :=
  {| enabled := false; last_position := 0; last_switch_state := true |}.

(** The firmware as [main] finds it at 0 ms with encoder and display
    working. *)
Definition booted : Main :=
  main_init encoder_ready {| display_enabled := true |} 0.

(** Passes of the loop at time [t] (both clock readings) in which every
    read returns: nothing touched, cell (0, 0) closed, encoder position
    [p]. *)
Definition idle_tick (t : Z) : tick :=
  mkTick t t (levels_of all_up) (Returns 0) (Returns true) (Returns tt).

Definition key_tick (t : Z) : tick :=
  mkTick t t (levels_of (only 0 0)) (Returns 0) (Returns true) (Returns tt).

Definition turn_tick (t p : Z) : tick :=
  mkTick t t (levels_of all_up) (Returns p) (Returns true) (Returns tt).


(** Two states of the loop with the same scanner, keymap and layer. *)
Definition same_config (m m' : Main) : Prop :=
  matrix_scanner m' = matrix_scanner m /\
  keymap m' = keymap m /\
  current_layer m' = current_layer m.

(** ** Observers for runs of the scanner, the encoder and the loop *)

(** Consecutive calls of [scan]: the scanner after the last pass, or the
    exception of the first pass that raises. *)
Fixpoint scan_all (s : MatrixScanner) (passes : list pass) : outcome MatrixScanner :=
  match passes with
  | [] => Returns s
  | (t, levels) :: passes' =>
      try! (s', _) <- scan s t levels in
      scan_all s' passes'
  end.

(** Reference for the pairs [update] reports over polls that all read
    successfully, from the position [pos] and switch level [sw] of the
    poll before: the sign of the change of position, and whether the
    switch went from high to low. *)
Fixpoint edge_detector (pos : Z) (sw : bool) (reads : list (Z * bool)) : list (Z * bool) :=
  match reads with
  | [] => []
  | (p, b) :: reads' => (Z.sgn (p - pos), sw && negb b) :: edge_detector p b reads'
  end.

(** The keys written to the host, and the frames shown, among a list of
    effects. *)
Definition writes (fx : list effect) : list KC.key :=
  flat_map (fun e => match e with KeyboardWrite k => [k] | DisplayShow _ => [] end) fx.

Definition frames (fx : list effect) : list view :=
  flat_map (fun e => match e with KeyboardWrite _ => [] | DisplayShow v => [v] end) fx.

(** The loop state with another display controller. *)
Definition set_display (m : Main) (d : DisplayController) : Main :=
  mkMain (matrix_scanner m) (encoder m) d (keymap m) (current_layer m)
         (current_encoder_value m) (last_key_pressed m) (last_time_update m).

Definition outcome_map {A B : Type} (f : A -> B) (o : outcome A) : outcome B :=
  match o with
  | Returns a => Returns (f a)
  | Raises e => Raises e
  end.

(** What no pass of the loop assigns: the layer, the keymap, the display
    controller and the encoder's [enabled] flag. *)
Definition same_setup (m m' : Main) : Prop :=
  current_layer m' = current_layer m /\
  keymap m' = keymap m /\
  display m' = display m /\
  enabled (encoder m') = enabled (encoder m).

(** Two passes that differ at most in the outcome of the drawing code. *)
Definition same_reads (i i' : tick) : Prop :=
  current_time_check i' = current_time_check i /\
  scan_time i' = scan_time i /\
  raw i' = raw i /\
  position i' = position i /\
  switch i' = switch i.

(** The same passes with other outcomes of the drawing code, none of
    them an interrupt. *)
Definition redrawn (ticks ticks' : list tick) : Prop :=
  Forall2 (fun i i' => same_reads i i' /\
                       interrupts (draw i) = false /\ interrupts (draw i') = false)
          ticks ticks'.

(** Every call of a scan over a [rows] by [cols] matrix returns: for each
    column the two writes of the column pin, the sleep and the reads of
    the row pins. *)
Definition scan_calls_ok (rows cols : nat) (levels : nat -> nat -> outcome bool) (x : calls)
    : bool :=
  forallb (fun c => returns (col_high x c) && returns (settle x c)
                    && forallb (fun r => returns (levels r c)) (seq 0 rows)
                    && returns (col_low x c))
          (seq 0 cols).

(** The calls of a pass besides the reads and the drawing code return:
    the column writes and sleeps of the scan, every [keyboard.write] and
    the closing sleep. *)
Definition calls_return (cols : nat) (x : calls) : Prop :=
  (forall c, (c < cols)%nat ->
     returns (col_high x c) = true /\ returns (settle x c) = true /\
     returns (col_low x c) = true) /\
  (forall k, returns (key_write x k) = true) /\
  returns (tick_sleep x) = true.

(** The entry of [layer] the key loop writes for a cell. *)
Definition layer_entry (layer : list KC.key) (k : nat * nat) : KC.key :=
  nth (fst k * MATRIX_COLS + snd k) layer KC.NO.

(** ** Properties of the tables *)

Section Tables.
Context {A : Type}.
Implicit Types (m : list (list A)) (r c : nat).

Lemma dims_set2 rows cols m r c (v : A) :
  dims rows cols m -> dims rows cols (set2 m r c v).
Proof.
  intros [Hlen Hall]. split.
  - unfold set2. by rewrite length_alter.
  - unfold set2. apply Forall_lookup. intros i row Hi.
    destruct (decide (r = i)) as [->|Hne].
    + rewrite list_lookup_alter_eq in Hi.
      destruct (m !! i) as [row0|] eqn:E; simplify_eq/=.
      rewrite length_insert. eapply (proj1 (Forall_lookup _ _) Hall); eauto.
    + rewrite list_lookup_alter_ne in Hi by done.
      eapply (proj1 (Forall_lookup _ _) Hall); eauto.
Qed.

Lemma get2_set2_eq rows cols d m r c (v : A) :
  dims rows cols m -> (r < rows)%nat -> (c < cols)%nat ->
  get2 d (set2 m r c v) r c = v.
Proof.
  intros [Hlen Hall] Hr Hc. unfold get2, set2.
  rewrite list_lookup_alter_eq.
  destruct (lookup_lt_is_Some_2 m r) as [row Hrow]; [lia|].
  rewrite Hrow. simpl.
  rewrite list_lookup_insert_eq; [done|].
  rewrite (proj1 (Forall_lookup _ _) Hall r row Hrow). done.
Qed.

Lemma get2_set2_ne d m r c r' c' (v : A) :
  (r, c) <> (r', c') -> get2 d (set2 m r c v) r' c' = get2 d m r' c'.
Proof.
  intros Hne. unfold get2, set2.
  destruct (decide (r = r')) as [->|Hr].
  - rewrite list_lookup_alter_eq. destruct (m !! r') as [row|]; simpl; [|done].
    rewrite list_lookup_insert_ne; [done|]. congruence.
  - by rewrite list_lookup_alter_ne.
Qed.


End Tables.

(** ** What one scan does to each cell *)

Lemma same_shape_refl s : same_shape s s.
Proof. by repeat split. Qed.

Lemma same_shape_trans s1 s2 s3 : same_shape s1 s2 -> same_shape s2 s3 -> same_shape s1 s3.
Proof. unfold same_shape. intros (?&?&?) (?&?&?). repeat split; congruence. Qed.


Lemma scan_cell_spec t v r c s acc s' acc' :
  wf s -> (r < num_rows s)%nat -> (c < num_cols s)%nat ->
  scan_cell t v r c s acc = (s', acc') ->
  wf s' /\ same_shape s s' /\
  cell s' r c = cell_step (debounce_ms s) t v (pressed s r c) (press_time s r c) /\
  (forall r' c', (r, c) <> (r', c') -> cell s' r' c' = cell s r' c') /\
  acc' = acc ++ (if press_accepted s t (levels_of (fun _ _ => v)) r c then [(r, c)] else []).
Proof.
  intros [Hk Hl] Hr Hc. unfold scan_cell, cell_step, press_accepted, levels_of, cell.
  fold (pressed s r c). fold (press_time s r c).
  destruct v, (pressed s r c) eqn:Ek; simpl;
    destruct (debounce_ms s <? t - press_time s r c) eqn:Ed; simpl;
    intros [= <- <-]; rewrite ?app_nil_r;
    repeat match goal with |- _ /\ _ => split end;
    try done; try apply same_shape_refl; try (by rewrite Ek);
    unfold wf, pressed, press_time; simpl;
    try (by (split; try apply dims_set2)).
  - by rewrite (get2_set2_eq _ _ _ _ _ _ _ Hk Hr Hc), (get2_set2_eq _ _ _ _ _ _ _ Hl Hr Hc).
  - intros r' c' Hne. by rewrite !get2_set2_ne.
  - by rewrite (get2_set2_eq _ _ _ _ _ _ _ Hk Hr Hc).
  - intros r' c' Hne. by rewrite !get2_set2_ne.
Qed.

Lemma press_accepted_cell s s' t levels r c :
  same_shape s s' -> cell s' r c = cell s r c ->
  press_accepted s' t levels r c = press_accepted s t levels r c.
Proof.
  intros (Hd & _ & _) [= Hp Ht]. unfold press_accepted. by rewrite Hd, Hp, Ht.
Qed.

Lemma scan_rows_spec t levels col rows :
  forall s acc s' acc',
    wf s -> (col < num_cols s)%nat ->
    Forall (fun r => (r < num_rows s)%nat) rows -> NoDup rows ->
    scan_rows t levels col rows s acc = Returns (s', acc') ->
    wf s' /\ same_shape s s' /\
    (forall r, In r rows -> exists v, levels r col = Returns v /\
       cell s' r col = cell_step (debounce_ms s) t v (pressed s r col) (press_time s r col)) /\
    (forall r c, ~ (c = col /\ In r rows) -> cell s' r c = cell s r c) /\
    acc' = acc ++ map (fun r => (r, col))
                      (List.filter (fun r => press_accepted s t levels r col) rows).
Proof.
  induction rows as [|r0 rows IH]; intros s acc s' acc' Hwf Hcol Hrows Hnd; simpl.
  - intros [= <- <-]. rewrite app_nil_r.
    repeat split; try apply Hwf; done.
  - destruct (levels r0 col) as [v|e] eqn:Ev; simpl; [|done].
    destruct (scan_cell t v r0 col s acc) as [s1 acc1] eqn:E1.
    inversion Hrows as [|? ? Hr0 Hrows']; subst.
    inversion Hnd as [|? ? Hnotin Hnd']; subst.
    destruct (scan_cell_spec _ _ _ _ _ _ _ _ Hwf Hr0 Hcol E1)
      as (Hwf1 & Hsh1 & Hc1 & Hfr1 & Hacc1).
    intros Hrun.
    assert (Hrows1 : Forall (fun r => (r < num_rows s1)%nat) rows).
    { destruct Hsh1 as (_ & -> & _). done. }
    assert (Hcol1 : (col < num_cols s1)%nat).
    { destruct Hsh1 as (_ & _ & ->). done. }
    destruct (IH _ _ _ _ Hwf1 Hcol1 Hrows1 Hnd' Hrun)
      as (Hwf' & Hsh' & Hin & Hfr & Hacc).
    assert (Hne : forall r, In r rows -> (r0, col) <> (r, col)).
    { intros r Hr [= ->]. by apply Hnotin, list_elem_of_In. }
    split; [done|]. split; [by eapply same_shape_trans|]. split; [|split].
    + intros r [<-|Hr].
      * exists v. split; [done|]. rewrite Hfr; [done|].
        intros [_ Hr]. by apply Hnotin, list_elem_of_In.
      * destruct (Hin r Hr) as (w & Hw & Hstep). exists w. split; [done|].
        rewrite Hstep. destruct Hsh1 as (-> & _ & _).
        pose proof (Hfr1 r col (Hne r Hr)) as [= -> ->]. done.
    + intros r c Hnot. rewrite Hfr by (intros [-> Hr]; apply Hnot; split; [done|by right]).
      apply Hfr1. intros [= <- <-]. apply Hnot. split; [done|by left].
    + rewrite Hacc, Hacc1, <- app_assoc. f_equal.
      assert (Hext : List.filter (fun r => press_accepted s1 t levels r col) rows
                     = List.filter (fun r => press_accepted s t levels r col) rows).
      { apply filter_ext_in. intros r Hr.
        apply press_accepted_cell; [done|]. by apply Hfr1, Hne. }
      rewrite Hext.
      assert (Hhd : press_accepted s t (levels_of (fun _ _ => v)) r0 col
                    = press_accepted s t levels r0 col).
      { unfold press_accepted, levels_of. by rewrite Ev. }
      rewrite Hhd. by destruct (press_accepted s t levels r0 col).
Qed.

Lemma accepted_presses_ext s s' t levels cols :
  same_shape s s' ->
  (forall r c, In c cols -> cell s' r c = cell s r c) ->
  accepted_presses s' t levels cols = accepted_presses s t levels cols.
Proof.
  intros Hsh. unfold accepted_presses.
  induction cols as [|c cols IH]; intros Hcells; simpl; [done|].
  rewrite IH; [|intros r' c' Hc'; apply Hcells; right; exact Hc']. f_equal. f_equal.
  pose proof Hsh as (_ & Hrows & _). rewrite Hrows.
  apply filter_ext_in. intros r _.
  apply press_accepted_cell; [exact Hsh|]. apply Hcells. by left.
Qed.

Lemma scan_cols_spec t levels cols :
  forall s acc s' acc',
    wf s -> Forall (fun c => (c < num_cols s)%nat) cols -> NoDup cols ->
    scan_cols t levels cols s acc = Returns (s', acc') ->
    wf s' /\ same_shape s s' /\
    (forall r c, In c cols -> (r < num_rows s)%nat -> exists v, levels r c = Returns v /\
       cell s' r c = cell_step (debounce_ms s) t v (pressed s r c) (press_time s r c)) /\
    (forall r c, ~ (In c cols /\ (r < num_rows s)%nat) -> cell s' r c = cell s r c) /\
    acc' = acc ++ accepted_presses s t levels cols.
Proof.
  induction cols as [|c0 cols IH]; intros s acc s' acc' Hwf Hcols Hnd; simpl.
  - intros [= <- <-]. rewrite app_nil_r.
    repeat split; try apply Hwf; done.
  - destruct (scan_rows t levels c0 (seq 0 (num_rows s)) s acc) as [[s1 acc1]|e] eqn:E1;
      simpl; [|done].
    inversion Hcols as [|? ? Hc0 Hcols']; subst.
    inversion Hnd as [|? ? Hnotin Hnd']; subst.
    assert (Hseq : Forall (fun r => (r < num_rows s)%nat) (seq 0 (num_rows s))).
    { apply Forall_forall. intros r Hr. apply elem_of_seq in Hr. lia. }
    destruct (scan_rows_spec _ _ _ _ _ _ _ _ Hwf Hc0 Hseq (NoDup_seq _ _) E1)
      as (Hwf1 & Hsh1 & Hin1 & Hfr1 & Hacc1).
    intros Hrun.
    assert (Hcols1 : Forall (fun c => (c < num_cols s1)%nat) cols).
    { destruct Hsh1 as (_ & _ & ->). done. }
    destruct (IH _ _ _ _ Hwf1 Hcols1 Hnd' Hrun) as (Hwf' & Hsh' & Hin & Hfr & Hacc).
    assert (Hrows1 : num_rows s1 = num_rows s) by apply Hsh1.
    assert (Hne : forall r c, In c cols -> cell s1 r c = cell s r c).
    { intros r c Hc. apply Hfr1. intros [-> _]. by apply Hnotin, list_elem_of_In. }
    split; [done|]. split; [by eapply same_shape_trans|]. split; [|split].
    + intros r c [<-|Hc] Hr.
      * destruct (Hin1 r) as (v & Hv & Hstep); [apply in_seq; lia|].
        exists v. split; [done|]. rewrite <- Hstep. apply Hfr.
        intros [Hc _]. by apply Hnotin, list_elem_of_In.
      * destruct (Hin r c Hc) as (v & Hv & Hstep); [lia|].
        exists v. split; [done|]. rewrite Hstep.
        destruct Hsh1 as (-> & _ & _).
        pose proof (Hne r c Hc) as [= -> ->]. done.
    + intros r c Hnot.
      rewrite Hfr by (rewrite Hrows1; intros [Hc Hr]; apply Hnot; split; [by right|done]).
      apply Hfr1. intros [-> Hr]. apply in_seq in Hr.
      apply Hnot. split; [by left|lia].
    + rewrite Hacc, Hacc1, <- app_assoc. f_equal.
      rewrite (accepted_presses_ext s s1) by done.
      reflexivity.
Qed.

(** [scan] visits every cell of the matrix once: the cell's state and
    timestamp after the pass are [cell_step] of those before, the other
    entries are as before, and [pressed_keys] lists the accepted presses
    in scan order. *)
Lemma scan_spec s t levels s' keys :
  wf s -> scan s t levels = Returns (s', keys) ->
  wf s' /\ same_shape s s' /\
  (forall r c, (r < num_rows s)%nat -> (c < num_cols s)%nat ->
     exists v, levels r c = Returns v /\
       cell s' r c = cell_step (debounce_ms s) t v (pressed s r c) (press_time s r c)) /\
  (forall r c, ~ ((r < num_rows s)%nat /\ (c < num_cols s)%nat) -> cell s' r c = cell s r c) /\
  keys = accepted_presses s t levels (seq 0 (num_cols s)).
Proof.
  intros Hwf Hrun. unfold scan in Hrun.
  assert (Hseq : Forall (fun c => (c < num_cols s)%nat) (seq 0 (num_cols s))).
  { apply Forall_forall. intros c Hc. apply elem_of_seq in Hc. lia. }
  destruct (scan_cols_spec _ _ _ _ _ _ _ Hwf Hseq (NoDup_seq _ _) Hrun)
    as (Hwf' & Hsh & Hin & Hfr & Hacc).
  repeat split; try apply Hwf'; try apply Hsh; try done.
  - intros r c Hr Hc. apply Hin; [apply in_seq; lia|done].
  - intros r c Hnot. apply Hfr. intros [Hc Hr]. apply in_seq in Hc. apply Hnot. lia.
Qed.

(** Every cell, in the matrix or not, ends a scan as [cell_step] of what
    it was for some level [v]. *)
Lemma scan_cell_step s t levels s' keys r c :
  wf s -> scan s t levels = Returns (s', keys) ->
  exists v, cell s' r c = cell_step (debounce_ms s) t v (pressed s r c) (press_time s r c).
Proof.
  intros Hwf Hrun.
  destruct (scan_spec _ _ _ _ _ Hwf Hrun) as (_ & _ & Hin & Hfr & _).
  destruct (decide ((r < num_rows s)%nat /\ (c < num_cols s)%nat)) as [[Hr Hc]|Hout].
  - destruct (Hin r c Hr Hc) as (v & _ & Hstep). by exists v.
  - exists (pressed s r c). rewrite (Hfr r c Hout). unfold cell, cell_step.
    by destruct (pressed s r c).
Qed.

Lemma cell_step_flip d t v k l k' l' :
  cell_step d t v k l = (k', l') -> k' <> k ->
  d < t - l /\ l' = (if k' then t else l).
Proof.
  unfold cell_step.
  destruct v, k; simpl; destruct (Z.ltb_spec d (t - l)); intros [= <- <-] Hne;
    try done.
Qed.

Lemma cell_step_same d t v k l k' l' :
  cell_step d t v k l = (k', l') -> k' = k -> l' = l.
Proof.
  unfold cell_step.
  destruct v, k; simpl; destruct (d <? t - l); intros [= <- <-] Hne; done.
Qed.

(** Every accepted transition comes more than the window after the
    timestamp the cell had at the start of the run. *)
Lemma flips_after_press_time r c passes :
  forall s, wf s -> 0 <= debounce_ms s ->
    Forall (fun b => debounce_ms s < fst b - press_time s r c) (flips r c s passes).
Proof.
  induction passes as [|[t levels] passes IH]; intros s Hwf Hd; simpl; [constructor|].
  destruct (scan s t levels) as [[s' keys]|e] eqn:Hrun; [|constructor].
  destruct (scan_spec _ _ _ _ _ Hwf Hrun) as (Hwf' & (Hd' & _) & _).
  destruct (scan_cell_step _ _ _ _ _ r c Hwf Hrun) as (v & Hstep).
  unfold cell in Hstep.
  assert (Hd'' : 0 <= debounce_ms s') by lia.
  specialize (IH s' Hwf' Hd''). rewrite Hd' in IH.
  destruct (Bool.eqb (pressed s r c) (pressed s' r c)) eqn:Heq; simpl.
  - apply Bool.eqb_prop in Heq.
    rewrite (cell_step_same _ _ _ _ _ _ _ (eq_sym Hstep) (eq_sym Heq)) in IH. exact IH.
  - apply Bool.eqb_false_iff in Heq.
    destruct (cell_step_flip _ _ _ _ _ _ _ (eq_sym Hstep)) as [Hlt Hl]; [congruence|].
    constructor; [simpl; lia|].
    eapply Forall_impl; [exact IH|]. intros b Hb. simpl in Hb.
    rewrite Hl in Hb. destruct (pressed s' r c); lia.
Qed.

(** ** Claims about the matrix scanner *)

(** C1, as stated, fails.  Cell (0, 0) is read closed at 100 ms and at
    120 ms, open at 121 ms and closed again at 122 ms: the two raw
    transitions lie within 2 ms of each other, and the scanner accepts
    both, a release at 121 ms and a press at 122 ms, because the release
    leaves the timestamp at 100 ms. *)
Lemma C1_release_then_press_inside_window :
  flips 0 0 (MatrixScanner_init ROW_PINS COL_PINS DEBOUNCE_MS)
    [(100, levels_of (only 0 0)); (120, levels_of (only 0 0));
     (121, levels_of all_up); (122, levels_of (only 0 0))]
  = [(100, true); (121, false); (122, true)] /\
  ~ one_flip_per_window DEBOUNCE_MS
      (flips 0 0 (MatrixScanner_init ROW_PINS COL_PINS DEBOUNCE_MS)
         [(100, levels_of (only 0 0)); (120, levels_of (only 0 0));
          (121, levels_of all_up); (122, levels_of (only 0 0))]).
Proof.
  split; [reflexivity|].
  change (~ one_flip_per_window 20 [(100, true); (121, false); (122, true)]).
  intros H. inversion H as [|a l Hl Ha]; subst.
  inversion Hl as [|a' l' Hl' Ha']; subst.
  inversion Ha' as [|x xs Hx Hxs]; subst.
  simpl in Hx. lia.
Qed.

(** C1, amended: over any sequence of calls of [scan], once a press of a
    cell has been accepted, every later accepted transition of that cell
    (the release that follows, and every later press or release) comes
    more than [debounce_ms] after it.  In particular two accepted presses
    of a cell are more than the window apart. *)
Theorem C1_transitions_spaced_after_press r c passes :
  forall s, wf s -> 0 <= debounce_ms s ->
    spaced_after_press (debounce_ms s) (flips r c s passes).
Proof.
  unfold spaced_after_press.
  induction passes as [|[t levels] passes IH]; intros s Hwf Hd; simpl; [constructor|].
  destruct (scan s t levels) as [[s' keys]|e] eqn:Hrun; [|constructor].
  destruct (scan_spec _ _ _ _ _ Hwf Hrun) as (Hwf' & (Hd' & _) & _).
  destruct (scan_cell_step _ _ _ _ _ r c Hwf Hrun) as (v & Hstep).
  unfold cell in Hstep.
  assert (Hd'' : 0 <= debounce_ms s') by lia.
  pose proof (IH s' Hwf' Hd'') as IHs. rewrite Hd' in IHs.
  destruct (Bool.eqb (pressed s r c) (pressed s' r c)) eqn:Heq; simpl; [exact IHs|].
  apply Bool.eqb_false_iff in Heq.
  destruct (cell_step_flip _ _ _ _ _ _ _ (eq_sym Hstep)) as [Hlt Hl]; [congruence|].
  constructor; [exact IHs|].
  pose proof (flips_after_press_time r c passes s' Hwf' Hd'') as Hall.
  rewrite Hd' in Hall.
  eapply Forall_impl; [exact Hall|]. intros b Hb Hpress. simpl in *.
  rewrite Hl, Hpress in Hb. exact Hb.
Qed.

Lemma C1_transitions_spaced_after_press_witness :
  spaced_after_press 20
    (flips 0 0 (MatrixScanner_init ROW_PINS COL_PINS DEBOUNCE_MS)
       [(100, levels_of (only 0 0)); (121, levels_of all_up); (122, levels_of (only 0 0))]).
Proof.
  apply (C1_transitions_spaced_after_press 0 0
           [(100, levels_of (only 0 0)); (121, levels_of all_up); (122, levels_of (only 0 0))]
           (MatrixScanner_init ROW_PINS COL_PINS DEBOUNCE_MS)).
  - split; (split; [reflexivity | repeat constructor]).
  - unfold DEBOUNCE_MS. simpl. lia.
Defined.

(** C3, as stated, fails.  With cell (0, 0) held since 100 ms, a scan at
    200 ms that reads every switch open accepts the release of the cell
    (its state goes from true to false) and returns the empty list. *)
Lemma C3_release_is_not_returned :
  scan (MatrixScanner_init ROW_PINS COL_PINS DEBOUNCE_MS) 100 (levels_of (only 0 0))
  = Returns (held_00, [(0, 0)]%nat) /\
  pressed held_00 0 0 = true /\
  scan held_00 200 (levels_of all_up) = Returns (released_00, []) /\
  pressed released_00 0 0 = false.
Proof. repeat split. Qed.

(** C3, amended: each call of [scan] returns the list of (row, col) of
    exactly the cells whose accepted transition in this pass is a press;
    a cell whose release is accepted has no entry in the list. *)
Theorem C3_scan_returns_accepted_presses s t levels s' keys :
  wf s -> scan s t levels = Returns (s', keys) ->
  forall r c,
    (In (r, c) keys <-> pressed s r c = false /\ pressed s' r c = true) /\
    (pressed s r c = true -> pressed s' r c = false -> ~ In (r, c) keys).
Proof.
  intros Hwf Hrun r c.
  destruct (scan_spec _ _ _ _ _ Hwf Hrun) as (_ & _ & Hin & Hfr & Hkeys).
  assert (Hiff : In (r, c) keys <-> pressed s r c = false /\ pressed s' r c = true).
  { rewrite Hkeys. unfold accepted_presses. rewrite in_flat_map. split.
    - intros (c' & Hc' & Hmap). apply in_map_iff in Hmap as (r' & [= -> ->] & Hf).
      apply filter_In in Hf as (Hr & Hacc). apply in_seq in Hr, Hc'.
      destruct (Hin r c) as (v & Hv & Hstep); [lia..|].
      unfold press_accepted in Hacc. rewrite Hv in Hacc.
      destruct v; [|done]. apply andb_prop in Hacc as (Hk & Hlt).
      apply negb_true_iff in Hk. split; [done|].
      unfold cell, cell_step in Hstep. rewrite Hk in Hstep. simpl in Hstep.
      rewrite Hlt in Hstep. by inversion Hstep.
    - intros (Hk & Hk').
      destruct (decide ((r < num_rows s)%nat /\ (c < num_cols s)%nat)) as [[Hr Hc]|Hout].
      + exists c. split; [apply in_seq; lia|].
        apply in_map_iff. exists r. split; [done|].
        apply filter_In. split; [apply in_seq; lia|].
        destruct (Hin r c Hr Hc) as (v & Hv & Hstep).
        unfold press_accepted. rewrite Hv.
        unfold cell, cell_step in Hstep. rewrite Hk, Hk' in Hstep.
        destruct v; simpl in Hstep; [|by inversion Hstep].
        rewrite Hk. simpl.
        destruct (debounce_ms s <? t - press_time s r c); [done|by inversion Hstep].
      + pose proof (Hfr r c Hout) as [= Hp _]. congruence. }
  split; [exact Hiff|].
  intros Hk Hk' Hmem. apply Hiff in Hmem as (Hk0 & _). congruence.
Qed.

Lemma C3_scan_returns_accepted_presses_witness :
  (In (0%nat, 0%nat) [] <-> pressed held_00 0 0 = false /\ pressed released_00 0 0 = true) /\
  (pressed held_00 0 0 = true -> pressed released_00 0 0 = false -> ~ In (0%nat, 0%nat) []).
Proof.
  apply (C3_scan_returns_accepted_presses held_00 200 (levels_of all_up) released_00 []).
  - split; (split; [reflexivity | repeat constructor]).
  - reflexivity.
Defined.

(** C9: in every call of [scan] and for every cell, an accepted release
    (state true before, false after) leaves the cell's entry of
    [last_press_time] as it was; the entry changes only where a press is
    accepted, and then it is the time of the scan. *)
Theorem C9_release_keeps_last_press_time s t levels s' keys r c :
  wf s -> scan s t levels = Returns (s', keys) ->
  (pressed s r c = true -> pressed s' r c = false ->
   press_time s' r c = press_time s r c) /\
  (press_time s' r c <> press_time s r c ->
   pressed s r c = false /\ pressed s' r c = true /\ press_time s' r c = t).
Proof.
  intros Hwf Hrun.
  destruct (scan_cell_step _ _ _ _ _ r c Hwf Hrun) as (v & Hstep).
  unfold cell, cell_step in Hstep.
  destruct v, (pressed s r c); simpl in Hstep;
    destruct (debounce_ms s <? t - press_time s r c);
    inversion Hstep as [[Hk Hl]]; split; intros; try done; congruence.
Qed.

Lemma C9_release_keeps_last_press_time_witness :
  (pressed held_00 0 0 = true -> pressed released_00 0 0 = false ->
   press_time released_00 0 0 = press_time held_00 0 0) /\
  (press_time released_00 0 0 <> press_time held_00 0 0 ->
   pressed held_00 0 0 = false /\ pressed released_00 0 0 = true /\
   press_time released_00 0 0 = 200).
Proof.
  apply (C9_release_keeps_last_press_time held_00 200 (levels_of all_up) released_00 [] 0 0).
  - split; (split; [reflexivity | repeat constructor]).
  - reflexivity.
Defined.

(** ** Claims about the encoder *)


Lemma update_disabled e position switch :
  enabled e = false -> update e position switch = mkPoll e (Returns (0, false)) [].
Proof. intros H. unfold update. by rewrite H. Qed.

Lemma update_released_stays e p :
  enabled e = true -> last_switch_state e = false ->
  let q := update e (Returns p) (Returns false) in
  poll_result q = Returns (Z.sgn (p - last_position e), false) /\
  enabled (poll_state q) = true /\ last_switch_state (poll_state q) = false.
Proof.
  intros He Hs. unfold update. rewrite He. simpl.
  destruct (Z.ltb_spec (last_position e) p); [|destruct (Z.ltb_spec p (last_position e))];
    simpl; rewrite Hs; simpl; repeat split; try done; f_equal; f_equal; lia.
Qed.

Lemma updates_held e positions :
  enabled e = true -> last_switch_state e = false ->
  map clicked (updates e (map (fun p => (Returns p, Returns false)) positions))
  = replicate (length positions) (Some false).
Proof.
  revert e. induction positions as [|p positions IH]; intros e He Hs; simpl; [done|].
  destruct (update_released_stays e p He Hs) as (Hres & He' & Hs').
  unfold clicked at 1. rewrite Hres. f_equal. by apply IH.
Qed.



(** C6: after a poll that reads the button up, a run of polls that all
    read it down (the switch is active low: [switch.value] is false while
    the button is held) reports [clicked = true] on its first poll and
    [clicked = false] on every later one.  Levels up, down, down, up over
    four polls of a fresh controller give false, true, false, false. *)
Theorem C6_sustained_press_clicks_once e p0 p1 positions :
  enabled e = true ->
  map clicked
      (updates (poll_state (update e (Returns p0) (Returns true)))
               (map (fun p => (Returns p, Returns false)) (p1 :: positions)))
  = Some true :: replicate (length positions) (Some false) /\
  map clicked (updates encoder_ready
                 [(Returns 0, Returns true); (Returns 0, Returns false);
                  (Returns 0, Returns false); (Returns 0, Returns true)])
  = [Some false; Some true; Some false; Some false].
Proof.
  intros He. split; [|reflexivity].
  set (e1 := poll_state (update e (Returns p0) (Returns true))).
  assert (He1 : enabled e1 = true /\ last_switch_state e1 = true).
  { unfold e1, update. rewrite He. simpl.
    destruct (last_position e <? p0); [|destruct (p0 <? last_position e)]; simpl;
      destruct (last_switch_state e) eqn:Hs; simpl; by rewrite ?He, ?Hs. }
  destruct He1 as [He1 Hs1].
  set (e2 := poll_state (update e1 (Returns p1) (Returns false))).
  assert (He2 : clicked (update e1 (Returns p1) (Returns false)) = Some true /\
                poll_result (update e1 (Returns p1) (Returns false))
                = Returns (Z.sgn (p1 - last_position e1), true) /\
                enabled e2 = true /\ last_switch_state e2 = false).
  { unfold e2, clicked, update. rewrite He1. simpl.
    destruct (Z.ltb_spec (last_position e1) p1); [|destruct (Z.ltb_spec p1 (last_position e1))];
      simpl; rewrite Hs1; simpl; rewrite ?He1; repeat split; try done;
      f_equal; f_equal; lia. }
  destruct He2 as (Hc & Hres & He2 & Hs2).
  cbn [map updates]. rewrite Hc, Hres. f_equal.
  by apply updates_held.
Qed.

Lemma C6_sustained_press_clicks_once_witness :
  map clicked
      (updates (poll_state (update encoder_ready (Returns 0) (Returns true)))
               (map (fun p => (Returns p, Returns false)) [0; 0; 0]))
  = [Some true; Some false; Some false].
Proof.
  apply (C6_sustained_press_clicks_once encoder_ready 0 0 [0; 0]). reflexivity.
Defined.

(** C8: when the set-up of the encoder or of its switch raises in
    [__init__], the controller is disabled, and every later call of
    [update], whatever the hardware would answer, returns (0, False),
    reads nothing, raises nothing and leaves the controller as it is, so
    that it stays disabled for good. *)
Theorem C8_disabled_encoder_is_permanent hw_encoder hw_switch e reads :
  EncoderController_init hw_encoder hw_switch = Returns e ->
  hw_encoder = Raises PyException \/ hw_switch = Raises PyException ->
  enabled e = false /\
  updates e reads = map (fun _ => mkPoll e (Returns (0, false)) []) reads.
Proof.
  intros Hinit Hfail.
  assert (He : enabled e = false).
  { unfold EncoderController_init in Hinit.
    destruct Hfail as [-> | ->]; [by inversion Hinit|].
    destruct hw_encoder as [[]|[]]; by inversion Hinit. }
  split; [exact He|].
  induction reads as [|[position switch] reads IH]; simpl; [done|].
  rewrite (update_disabled e position switch He). simpl. by rewrite IH.
Qed.

Lemma C8_disabled_encoder_is_permanent_witness :
  enabled encoder_disabled = false /\
  updates encoder_disabled
    [(Returns 5, Returns false); (Raises KeyboardInterrupt, Raises PyException)]
  = map (fun _ => mkPoll encoder_disabled (Returns (0, false)) [])
        [(Returns 5, Returns false); (Raises KeyboardInterrupt, Raises PyException)].
Proof.
  apply (C8_disabled_encoder_is_permanent (Raises PyException) (Returns tt)).
  - reflexivity.
  - left. reflexivity.
Defined.

(** ** Claims about the control loop *)

Lemma io_bind_effects {A B : Type} (m : io A) (k : A -> io B) (fx : effect) :
  In fx (fst (io_bind m k)) ->
  In fx (fst m) \/ exists a, snd m = Returns a /\ In fx (fst (k a)).
Proof.
  destruct m as [l [a|e]]; simpl; [|by left].
  destruct (k a) as [l' r] eqn:Hk. simpl. intros Hin.
  apply in_app_or in Hin as [Hin|Hin]; [by left|].
  right. exists a. rewrite Hk. done.
Qed.

Lemma io_bind_returns {A B : Type} (m : io A) (k : A -> io B) l a l' b :
  m = (l, Returns a) -> k a = (l', Returns b) -> io_bind m k = (l ++ l', Returns b).
Proof. intros -> Hk. simpl. by rewrite Hk. Qed.

Lemma show_effects d dr v fx : In fx (fst (show d dr v)) -> fx = DisplayShow v.
Proof.
  unfold show. destruct (display_enabled d), dr as [[]|[]]; simpl; intuition.
Qed.

(** C7: with [current_layer >= len(keyboard.keymap)] the loop over the
    pressed keys writes no key, draws nothing, raises nothing and leaves
    every variable as it is, whatever cells were pressed. *)
Theorem C7_layer_out_of_range_is_noop m i pressed_keys :
  Z.of_nat (length (keymap m)) <= current_layer m ->
  main_keys m i pressed_keys = ([], Returns m).
Proof.
  intros Hlayer. induction pressed_keys as [|[row col] pressed_keys IH]; simpl; [done|].
  destruct (Z.ltb_spec (current_layer m) (Z.of_nat (length (keymap m)))); [lia|].
  exact IH.
Qed.

Lemma C7_layer_out_of_range_is_noop_witness :
  main_keys (mkMain (MatrixScanner_init ROW_PINS COL_PINS DEBOUNCE_MS) encoder_ready
                    {| display_enabled := true |} keyboard_keymap 1 0 None 0)
            (key_tick 100) [(0, 0); (2, 1)]%nat
  = ([], Returns (mkMain (MatrixScanner_init ROW_PINS COL_PINS DEBOUNCE_MS) encoder_ready
                         {| display_enabled := true |} keyboard_keymap 1 0 None 0)).
Proof.
  apply (C7_layer_out_of_range_is_noop
           (mkMain (MatrixScanner_init ROW_PINS COL_PINS DEBOUNCE_MS) encoder_ready
                   {| display_enabled := true |} keyboard_keymap 1 0 None 0)
           (key_tick 100) [(0, 0); (2, 1)]%nat).
  simpl. lia.
Defined.

Lemma main_keys_cons m i row col pressed_keys :
  main_keys m i ((row, col) :: pressed_keys)
  = if current_layer m <? Z.of_nat (length (keymap m)) then
      do! layer <- lift (py_index (keymap m) (current_layer m)) in
      do! key <- lift (py_index layer (Z.of_nat (row * MATRIX_COLS + col))) in
      do! _ <- emit (KeyboardWrite key) in
      do! _ <- show_status (display m) (draw i) (current_layer m)
                 (current_encoder_value m) (Some (KeyRepr key)) in
      main_keys (set_last_time_update (set_last_key_pressed m (Some (KeyRepr key)))
                                      (current_time_check i - 800)) i pressed_keys
    else main_keys m i pressed_keys.
Proof. reflexivity. Qed.

Lemma main_encoder_eq m i :
  main_encoder m i
  = do! (rotation, button_pressed) <-
      lift (poll_result (update (encoder m) (position i) (switch i))) in
    let m0 := set_encoder m (poll_state (update (encoder m) (position i) (switch i))) in
    do! m1 <-
      (if 0 <? rotation then
         do! _ <- emit (KeyboardWrite KC.AUDIO_VOL_UP) in
         ret (set_current_encoder_value m0 (current_encoder_value m0 + 1))
       else if rotation <? 0 then
         do! _ <- emit (KeyboardWrite KC.AUDIO_VOL_DOWN) in
         ret (set_current_encoder_value m0 (current_encoder_value m0 - 1))
       else ret m0) in
    if (button_pressed : bool) then
      do! _ <- emit (KeyboardWrite KC.AUDIO_MUTE) in
      do! _ <- show_status (display m1) (draw i) 0 (current_encoder_value m1)
                 (Some (Literal "MUTE")) in
      ret (set_last_time_update m1 (current_time_check i - 800))
    else ret m1.
Proof. reflexivity. Qed.

Lemma main_keys_status_layer i keys l v k :
  forall m, In (DisplayShow (Status l v k)) (fst (main_keys m i keys)) ->
            l = current_layer m.
Proof.
  induction keys as [|[row col] keys IH]; intros m; [done|].
  rewrite main_keys_cons.
  destruct (current_layer m <? Z.of_nat (length (keymap m))); [|apply IH].
  intros Hin.
  apply io_bind_effects in Hin as [[]|(layer & _ & Hin)].
  apply io_bind_effects in Hin as [[]|(key & _ & Hin)].
  apply io_bind_effects in Hin as [[Hin|[]]|(_ & _ & Hin)]; [discriminate Hin|].
  apply io_bind_effects in Hin as [Hin|(_ & _ & Hin)].
  - apply show_effects in Hin. by inversion Hin.
  - apply IH in Hin. exact Hin.
Qed.

Lemma main_encoder_status_layer m i l v k :
  In (DisplayShow (Status l v k)) (fst (main_encoder m i)) -> l = 0.
Proof.
  rewrite main_encoder_eq. intros Hin.
  apply io_bind_effects in Hin as [[]|([rotation button_pressed] & _ & Hin)].
  apply io_bind_effects in Hin as [Hin|(m1 & _ & Hin)].
  - destruct (0 <? rotation); [|destruct (rotation <? 0)]; simpl in Hin;
      intuition discriminate.
  - destruct button_pressed; [|destruct Hin].
    apply io_bind_effects in Hin as [[Hin|[]]|(_ & _ & Hin)]; [discriminate Hin|].
    apply io_bind_effects in Hin as [Hin|(_ & _ & [])].
    apply show_effects in Hin. by inversion Hin.
Qed.

(** C10: a click of the encoder shows the status view with the literal
    layer 0 and the label "MUTE", whatever [current_layer] is, whereas
    the status view of a key press carries [current_layer]; no status
    view of the encoder branch has another layer than 0 and none of the
    key loop another one than [current_layer]. *)
Theorem C10_mute_status_shows_layer_zero m i p row col layer key :
  display_enabled (display m) = true -> draw i = Returns tt ->
  enabled (encoder m) = true -> last_switch_state (encoder m) = true ->
  position i = Returns p -> switch i = Returns false ->
  current_layer m < Z.of_nat (length (keymap m)) ->
  py_index (keymap m) (current_layer m) = Returns layer ->
  py_index layer (Z.of_nat (row * MATRIX_COLS + col)) = Returns key ->
  In (DisplayShow (Status 0 (current_encoder_value m + Z.sgn (p - last_position (encoder m)))
                          (Some (Literal "MUTE"))))
     (fst (main_encoder m i)) /\
  fst (main_keys m i [(row, col)])
  = [KeyboardWrite key;
     DisplayShow (Status (current_layer m) (current_encoder_value m) (Some (KeyRepr key)))] /\
  (forall l v k, In (DisplayShow (Status l v k)) (fst (main_encoder m i)) -> l = 0) /\
  (forall keys l v k, In (DisplayShow (Status l v k)) (fst (main_keys m i keys)) ->
                      l = current_layer m).
Proof.
  intros Hd Hdraw He Hs Hp Hsw Hlayer Hl Hk.
  split; [|split; [|split]].
  - unfold main_encoder, update, show_status, show. simpl.
    rewrite Hp, Hsw, He. simpl.
    destruct (Z.ltb_spec (last_position (encoder m)) p);
      [|destruct (Z.ltb_spec p (last_position (encoder m)))];
      simpl; rewrite Hs; simpl; rewrite Hd, Hdraw; simpl.
    + replace (Z.sgn (p - last_position (encoder m))) with 1 by lia. auto.
    + replace (Z.sgn (p - last_position (encoder m))) with (-1) by lia. auto.
    + replace (Z.sgn (p - last_position (encoder m))) with 0 by lia.
      rewrite Z.add_0_r. auto.
  - simpl. destruct (Z.ltb_spec (current_layer m) (Z.of_nat (length (keymap m)))); [|lia].
    rewrite Hl. simpl. rewrite Hk. unfold show_status, show. simpl.
    rewrite Hd, Hdraw. reflexivity.
  - intros l v k. apply main_encoder_status_layer.
  - intros keys l v k. apply main_keys_status_layer.
Qed.

Lemma C10_mute_status_shows_layer_zero_witness :
  In (DisplayShow (Status 0 7 (Some (Literal "MUTE"))))
     (fst (main_encoder
             (mkMain (MatrixScanner_init ROW_PINS COL_PINS DEBOUNCE_MS) encoder_ready
                     {| display_enabled := true |} (keyboard_keymap ++ KEYMAPS) 1 7 None 0)
             (mkTick 100 100 (levels_of all_up) (Returns 0) (Returns false) (Returns tt)))).
Proof.
  apply (C10_mute_status_shows_layer_zero
           (mkMain (MatrixScanner_init ROW_PINS COL_PINS DEBOUNCE_MS) encoder_ready
                   {| display_enabled := true |} (keyboard_keymap ++ KEYMAPS) 1 7 None 0)
           (mkTick 100 100 (levels_of all_up) (Returns 0) (Returns false) (Returns tt))
           0 0%nat 0%nat
           [KC.MEDIA_PREV_TRACK; KC.MEDIA_PLAY_PAUSE; KC.MEDIA_NEXT_TRACK;
            KC.BRIGHTNESS_UP; KC.NO; KC.BRIGHTNESS_DOWN;
            KC.RCTRL KC.M; KC.RCTRL KC.D; KC.LCTRL (KC.LALT KC.SLASH)]
           KC.MEDIA_PREV_TRACK); try reflexivity.
Defined.

(** C2 fails on the code.  The firmware shows the clock at 1000 ms; cell
    (0, 0) is pressed in the pass at 1500 ms, which writes the key and
    shows the status view; nothing happens afterwards.  The pass at
    1699 ms draws nothing and the pass at 1700 ms, 200 ms after the
    key, draws the clock again: the rewind of [last_time_update] by 0.8 s
    makes the 1 s test succeed after 0.2 s, not after 2 s. *)
Lemma C2_clock_returns_200_ms_after_key :
  fst (main_loop booted [idle_tick 1000; key_tick 1500; idle_tick 1699])
  = [DisplayShow Clock; KeyboardWrite KC.MEDIA_PREV_TRACK;
     DisplayShow (Status 0 0 (Some (KeyRepr KC.MEDIA_PREV_TRACK)))] /\
  fst (main_loop booted [idle_tick 1000; key_tick 1500; idle_tick 1699; idle_tick 1700])
  = [DisplayShow Clock; KeyboardWrite KC.MEDIA_PREV_TRACK;
     DisplayShow (Status 0 0 (Some (KeyRepr KC.MEDIA_PREV_TRACK)));
     DisplayShow Clock] /\
  1700 - 1500 < 2000.
Proof. repeat split. Qed.

(** The same in general: once a status view has put [last_time_update]
    at [t - 800], the clock is drawn by the first pass whose clock
    reading is at least [t + 200]. *)
Lemma clock_due_200_ms_after_status m i t :
  last_time_update m = t - 800 ->
  display_enabled (display m) = true -> draw i = Returns tt ->
  (In (DisplayShow Clock) (fst (main_clock m i)) <-> 200 <= current_time_check i - t).
Proof.
  intros Ht Hd Hdraw. unfold main_clock, show_time, show. rewrite Ht, Hd, Hdraw. simpl.
  destruct (Z.leb_spec 1000 (current_time_check i - (t - 800))); simpl.
  - split; [lia|auto].
  - split; [done|lia].
Qed.


(** *** When a pass completes *)

Lemma scan_rows_total t levels col rows :
  forall s acc,
    forallb (fun r => returns (levels r col)) rows = true ->
    exists s' acc', scan_rows t levels col rows s acc = Returns (s', acc').
Proof.
  induction rows as [|r rows IH]; intros s acc Hok; simpl; [by eexists _, _|].
  simpl in Hok. apply andb_prop in Hok as [Hr Hrows].
  destruct (levels r col) as [v|e]; [|done]. simpl.
  destruct (scan_cell t v r col s acc) as [s1 acc1]. by apply IH.
Qed.

Lemma scan_cols_total t levels cols :
  forall s acc,
    wf s -> Forall (fun c => (c < num_cols s)%nat) cols -> NoDup cols ->
    forallb (fun c => forallb (fun r => returns (levels r c)) (seq 0 (num_rows s))) cols = true ->
    exists s' acc', scan_cols t levels cols s acc = Returns (s', acc').
Proof.
  induction cols as [|c cols IH]; intros s acc Hwf Hcols Hnd Hok; simpl; [by eexists _, _|].
  simpl in Hok. apply andb_prop in Hok as [Hc Hrest].
  inversion Hcols as [|? ? Hc0 Hcols']; subst.
  inversion Hnd as [|? ? _ Hnd']; subst.
  destruct (scan_rows_total t levels c _ s acc Hc) as (s1 & acc1 & Hrows).
  rewrite Hrows. simpl.
  assert (Hseq : Forall (fun r => (r < num_rows s)%nat) (seq 0 (num_rows s))).
  { apply Forall_forall. intros r Hr. apply elem_of_seq in Hr. lia. }
  destruct (scan_rows_spec _ _ _ _ _ _ _ _ Hwf Hc0 Hseq (NoDup_seq _ _) Hrows)
    as (Hwf1 & (_ & Hr1 & Hc1) & _).
  apply IH; [done| by rewrite Hc1 | done | by rewrite Hr1].
Qed.

Lemma scan_total s t levels :
  wf s -> scan_reads_ok (num_rows s) (num_cols s) levels = true ->
  exists s' keys, scan s t levels = Returns (s', keys).
Proof.
  intros Hwf Hok. unfold scan. apply scan_cols_total; try done.
  - apply Forall_forall. intros c Hc. apply elem_of_seq in Hc. lia.
  - apply NoDup_seq.
Qed.

Lemma scan_keys_in_range s t levels s' keys r c :
  wf s -> scan s t levels = Returns (s', keys) -> In (r, c) keys ->
  (r < num_rows s)%nat /\ (c < num_cols s)%nat.
Proof.
  intros Hwf Hrun Hin.
  destruct (scan_spec _ _ _ _ _ Hwf Hrun) as (_ & _ & _ & _ & ->).
  unfold accepted_presses in Hin. apply in_flat_map in Hin as (c' & Hc' & Hmap).
  apply in_map_iff in Hmap as (r' & [= -> ->] & Hf).
  apply filter_In in Hf as (Hr & _). apply in_seq in Hr, Hc'. lia.
Qed.

Lemma py_index_nat {A : Type} (l : list A) (n : nat) :
  (n < length l)%nat -> exists x, py_index l (Z.of_nat n) = Returns x.
Proof.
  intros Hn. unfold py_index.
  destruct (Z.ltb_spec (Z.of_nat n) 0); [lia|].
  destruct (Z.ltb_spec (Z.of_nat n) 0); [lia|].
  rewrite Nat2Z.id. destruct (lookup_lt_is_Some_2 l n Hn) as [x ->]. by exists x.
Qed.

Lemma show_total d dr v :
  interrupts dr = false -> exists fx, show d dr v = (fx, Returns tt).
Proof.
  unfold show. destruct (display_enabled d), dr as [[]|[]]; simpl; try done;
    intros _; by eexists.
Qed.

Lemma update_returns e position switch :
  interrupts position = false -> interrupts switch = false ->
  exists rotation button_pressed,
    poll_result (update e position switch) = Returns (rotation, button_pressed).
Proof.
  intros Hp Hs. unfold update. destruct (enabled e); simpl; [|by eexists _, _].
  destruct position as [p|[]]; try done; [|by eexists _, _].
  destruct (last_position e <? p); [|destruct (p <? last_position e)];
    destruct switch as [b|[]]; try done; simpl;
    repeat match goal with |- context [if ?x then _ else _] => destruct x end;
    by eexists _, _.
Qed.

Lemma same_config_refl m : same_config m m.
Proof. by repeat split. Qed.

Lemma same_config_trans m1 m2 m3 :
  same_config m1 m2 -> same_config m2 m3 -> same_config m1 m3.
Proof. unfold same_config. intros (?&?&?) (?&?&?). repeat split; congruence. Qed.

Lemma keymap_covers_config m m' :
  same_config m m' -> keymap_covers m' = keymap_covers m.
Proof. intros (Hs & Hk & Hl). unfold keymap_covers. by rewrite Hs, Hk, Hl. Qed.

Lemma main_clock_total m i :
  interrupts (draw i) = false ->
  exists fx m', main_clock m i = (fx, Returns m') /\ same_config m m'.
Proof.
  intros Hdraw. unfold main_clock.
  destruct (1000 <=? current_time_check i - last_time_update m);
    [|eexists _, _; split; [reflexivity|apply same_config_refl]].
  destruct (show_total (display m) (draw i) Clock Hdraw) as (fx & Hshow).
  unfold show_time. rewrite Hshow. simpl.
  eexists _, _. split; [reflexivity|]. by repeat split.
Qed.

Lemma main_keys_total i keys :
  forall m,
    interrupts (draw i) = false -> keymap_covers m = true ->
    Forall (fun k => (fst k < num_rows (matrix_scanner m))%nat /\
                     (snd k < num_cols (matrix_scanner m))%nat) keys ->
    exists fx m', main_keys m i keys = (fx, Returns m') /\ same_config m m'.
Proof.
  induction keys as [|[row col] keys IH]; intros m Hdraw Hcov Hkeys.
  { eexists _, _. split; [reflexivity|apply same_config_refl]. }
  inversion Hkeys as [|? ? [Hrow Hcol] Hkeys']; subst. simpl in Hrow, Hcol.
  rewrite main_keys_cons.
  destruct (Z.ltb_spec (current_layer m) (Z.of_nat (length (keymap m)))) as [Hlt|Hge];
    [|by apply IH].
  pose proof Hcov as Hcov0. unfold keymap_covers in Hcov0.
  destruct (Z.leb_spec (Z.of_nat (length (keymap m))) (current_layer m)); [lia|].
  simpl in Hcov0.
  destruct (py_index (keymap m) (current_layer m)) as [layer|e] eqn:Hl; [|done].
  assert (Hidx : (row * MATRIX_COLS + col < length layer)%nat).
  { rewrite forallb_forall in Hcov0.
    specialize (Hcov0 row). rewrite forallb_forall in Hcov0.
    apply Nat.ltb_lt. apply Hcov0; apply in_seq; lia. }
  destruct (py_index_nat layer _ Hidx) as (key & Hk).
  set (m2 := set_last_time_update (set_last_key_pressed m (Some (KeyRepr key)))
                                  (current_time_check i - 800)).
  assert (Hcfg2 : same_config m m2) by (by repeat split).
  destruct (IH m2 Hdraw) as (fx2 & m' & Hrec & Hcfg).
  { by rewrite (keymap_covers_config m m2). }
  { done. }
  destruct (show_total (display m) (draw i)
              (Status (current_layer m) (current_encoder_value m) (Some (KeyRepr key)))
              Hdraw) as (fxs & Hshow).
  exists (KeyboardWrite key :: fxs ++ fx2), m'. split.
  - unfold lift, emit, show_status. cbn [io_bind]. rewrite Hk. cbn [io_bind].
    rewrite Hshow. cbn [io_bind]. fold m2. rewrite Hrec. reflexivity.
  - by eapply same_config_trans.
Qed.

Lemma main_encoder_total m i :
  interrupts (position i) = false -> interrupts (switch i) = false ->
  interrupts (draw i) = false ->
  exists fx m', main_encoder m i = (fx, Returns m') /\ same_config m m'.
Proof.
  intros Hp Hs Hdraw. rewrite main_encoder_eq.
  destruct (update_returns (encoder m) _ _ Hp Hs) as (rotation & button_pressed & Hres).
  rewrite Hres. unfold lift. cbn [io_bind].
  set (m0 := set_encoder m _).
  assert (H0 : same_config m m0) by (by repeat split).
  assert (H1 : exists fx1 m1,
             (if 0 <? rotation then
                do! _ <- emit (KeyboardWrite KC.AUDIO_VOL_UP) in
                ret (set_current_encoder_value m0 (current_encoder_value m0 + 1))
              else if rotation <? 0 then
                do! _ <- emit (KeyboardWrite KC.AUDIO_VOL_DOWN) in
                ret (set_current_encoder_value m0 (current_encoder_value m0 - 1))
              else ret m0) = (fx1, Returns m1) /\ same_config m m1).
  { destruct (0 <? rotation); [|destruct (rotation <? 0)];
      eexists _, _; (split; [reflexivity|by repeat split]). }
  destruct H1 as (fx1 & m1 & -> & Hcfg1). cbn [io_bind].
  destruct button_pressed.
  - destruct (show_total (display m1) (draw i)
                (Status 0 (current_encoder_value m1) (Some (Literal "MUTE"))) Hdraw)
      as (fxs & Hshow).
    unfold emit, show_status. cbn [io_bind]. rewrite Hshow. cbn [io_bind ret].
    eexists _, _. split; [reflexivity|].
    eapply same_config_trans; [exact Hcfg1|]. by repeat split.
  - unfold ret. eexists _, _. split; [reflexivity|exact Hcfg1].
Qed.

Lemma keymap_covers_shape m m' :
  keymap m' = keymap m -> current_layer m' = current_layer m ->
  same_shape (matrix_scanner m) (matrix_scanner m') ->
  keymap_covers m' = keymap_covers m.
Proof.
  intros Hk Hl (_ & Hr & Hc). unfold keymap_covers. by rewrite Hk, Hl, Hr, Hc.
Qed.

Lemma main_tick_total m i :
  wf (matrix_scanner m) -> keymap_covers m = true ->
  tick_ok (num_rows (matrix_scanner m)) (num_cols (matrix_scanner m)) i = true ->
  exists fx m',
    main_tick m i = (fx, Returns m') /\
    wf (matrix_scanner m') /\
    same_shape (matrix_scanner m) (matrix_scanner m') /\
    keymap_covers m' = true.
Proof.
  intros Hwf Hcov Hok. unfold tick_ok in Hok.
  apply andb_prop in Hok as [Hok Hdraw]. apply andb_prop in Hok as [Hok Hsw].
  apply andb_prop in Hok as [Hscan Hpos].
  apply negb_true_iff in Hdraw, Hsw, Hpos.
  unfold main_tick.
  destruct (main_clock_total m i Hdraw) as (fx1 & m1 & Hclock & (Hs1 & Hk1 & Hl1)).
  rewrite Hclock. cbn [io_bind]. rewrite Hs1.
  destruct (scan_total _ (scan_time i) (raw i) Hwf Hscan) as (s & keys & Hrun).
  rewrite Hrun. unfold lift. cbn [io_bind].
  destruct (scan_spec _ _ _ _ _ Hwf Hrun) as (Hwf' & Hsh & _).
  set (m1' := set_matrix_scanner m1 s).
  assert (Hcov1 : keymap_covers m1' = true).
  { rewrite <- Hcov. apply keymap_covers_shape; simpl; done. }
  destruct (main_keys_total i keys m1' Hdraw Hcov1) as (fx2 & m2 & Hkeys & (Hs2 & Hk2 & Hl2)).
  { apply Forall_forall. intros [r c] Hin. apply list_elem_of_In in Hin.
    destruct (scan_keys_in_range _ _ _ _ _ r c Hwf Hrun Hin) as [Hr Hc].
    destruct Hsh as (_ & Hrows & Hcols). simpl. lia. }
  rewrite Hkeys. cbn [io_bind].
  destruct (main_encoder_total m2 i Hpos Hsw Hdraw) as (fx3 & m3 & Henc & (Hs3 & Hk3 & Hl3)).
  rewrite Henc.
  eexists _, _. split; [reflexivity|].
  assert (Hs : matrix_scanner m3 = s) by (rewrite Hs3, Hs2; reflexivity).
  rewrite Hs. split; [done|]. split; [done|].
  rewrite <- Hcov. apply keymap_covers_shape.
  - rewrite Hk3, Hk2. simpl. done.
  - rewrite Hl3, Hl2. simpl. done.
  - by rewrite Hs.
Qed.

(** At the first level the loop goes on through every pass in which each
    row-pin read returns and nothing is interrupted, provided the active
    layer, if the keymap has it, holds an entry for every cell; a poll
    whose position read raises reports (0, False) and leaves the
    controller untouched. *)
Lemma main_loop_continues ticks :
  forall m,
    wf (matrix_scanner m) -> keymap_covers m = true ->
    Forall (fun i => tick_ok (num_rows (matrix_scanner m)) (num_cols (matrix_scanner m)) i
                     = true) ticks ->
    (exists fx m', run m ticks = (fx, Looping m')) /\
    (forall sw, update (encoder m) (Raises PyException) sw
                = mkPoll (encoder m) (Returns (0, false))
                         (if enabled (encoder m) then [ReadPosition] else [])).
Proof.
  intros m Hwf Hcov Hticks. split.
  - assert (Hloop : exists fx m', main_loop m ticks = (fx, Returns m')).
    { revert m Hwf Hcov Hticks.
      induction ticks as [|i ticks IH]; intros m Hwf Hcov Hticks; simpl;
        [by eexists _, _|].
      inversion Hticks as [|? ? Hi Hrest]; subst.
      destruct (main_tick_total m i Hwf Hcov Hi)
        as (fx & m1 & Htick & Hwf1 & (_ & Hr & Hc) & Hcov1).
      rewrite Htick. cbn [io_bind].
      destruct (IH m1 Hwf1 Hcov1) as (fx' & m' & Hrec).
      { by rewrite Hr, Hc. }
      rewrite Hrec. by eexists _, _. }
    destruct Hloop as (fx & m' & Hloop). unfold run. rewrite Hloop. by eexists _, _.
  - intros sw. unfold update. by destruct (enabled (encoder m)).
Qed.

(** ** Further properties of the matrix scanner *)

Lemma scan_keys_accepted s t levels s' keys r c :
  wf s -> scan s t levels = Returns (s', keys) ->
  (In (r, c) keys <->
   (r < num_rows s)%nat /\ (c < num_cols s)%nat /\ press_accepted s t levels r c = true).
Proof.
  intros Hwf Hrun.
  destruct (scan_spec _ _ _ _ _ Hwf Hrun) as (_ & _ & _ & _ & ->).
  unfold accepted_presses. rewrite in_flat_map. split.
  - intros (c' & Hc' & Hmap). apply in_map_iff in Hmap as (r' & [= -> ->] & Hf).
    apply filter_In in Hf as (Hr & Hacc). apply in_seq in Hr, Hc'.
    repeat split; [lia|lia|done].
  - intros (Hr & Hc & Hacc). exists c. split; [apply in_seq; lia|].
    apply in_map_iff. exists r. split; [done|].
    apply filter_In. split; [apply in_seq; lia|done].
Qed.

Lemma NoDup_list_filter {A : Type} (f : A -> bool) (l : list A) :
  NoDup l -> NoDup (List.filter f l).
Proof.
  induction 1 as [|x l Hx Hl IH]; simpl; [constructor|].
  destruct (f x); [|done]. constructor; [|done].
  rewrite list_elem_of_In, filter_In. intros [Hin _].
  by apply Hx, list_elem_of_In.
Qed.

Lemma NoDup_column (c : nat) (l : list nat) :
  NoDup l -> NoDup (map (fun r => (r, c)) l).
Proof.
  induction 1 as [|x l Hx Hl IH]; simpl; constructor; [|done].
  rewrite list_elem_of_In, in_map_iff. intros (r & [= ->] & Hr).
  by apply Hx, list_elem_of_In.
Qed.

Lemma accepted_presses_NoDup s t levels cols :
  NoDup cols -> NoDup (accepted_presses s t levels cols).
Proof.
  unfold accepted_presses.
  induction 1 as [|c cols Hc Hcols IH]; simpl; [constructor|].
  apply NoDup_app. split; [|split; [|done]].
  - apply NoDup_column, NoDup_list_filter, NoDup_seq.
  - intros [r c'] Hin Hin'. apply list_elem_of_In in Hin, Hin'.
    apply in_map_iff in Hin as (r0 & [= -> ->] & _).
    apply in_flat_map in Hin' as (c0 & Hc0 & Hmap).
    apply in_map_iff in Hmap as (r1 & [= _ ->] & _).
    by apply Hc, list_elem_of_In.
Qed.

(** X1: whatever the passes read, a run of scans that returns leaves the
    two tables with the dimensions of the matrix and never touches
    [debounce_ms], [num_rows] or [num_cols]. *)
Theorem scan_all_keeps_shape passes :
  forall s s', wf s -> scan_all s passes = Returns s' ->
    wf s' /\ debounce_ms s' = debounce_ms s /\
    num_rows s' = num_rows s /\ num_cols s' = num_cols s.
Proof.
  induction passes as [|[t levels] passes IH]; intros s s' Hwf; simpl.
  - by intros [= <-].
  - destruct (scan s t levels) as [[s1 keys]|e] eqn:Hrun; simpl; [|done].
    destruct (scan_spec _ _ _ _ _ Hwf Hrun) as (Hwf1 & (Hd & Hr & Hc) & _).
    intros Hrest. destruct (IH _ _ Hwf1 Hrest) as (Hwf' & Hd' & Hr' & Hc').
    repeat split; try apply Hwf'; congruence.
Qed.

Lemma scan_all_keeps_shape_witness :
  wf released_00 /\ debounce_ms released_00 = debounce_ms (MatrixScanner_init ROW_PINS COL_PINS 20) /\
  num_rows released_00 = num_rows (MatrixScanner_init ROW_PINS COL_PINS 20) /\
  num_cols released_00 = num_cols (MatrixScanner_init ROW_PINS COL_PINS 20).
Proof.
  apply (scan_all_keeps_shape
           [(100, levels_of (only 0 0)); (200, levels_of all_up)]
           (MatrixScanner_init ROW_PINS COL_PINS 20) released_00).
  - split; (split; [reflexivity | repeat constructor]).
  - reflexivity.
Defined.

Lemma scan_rows_raises t levels col rows :
  forall s acc e, scan_rows t levels col rows s acc = Raises e ->
                  exists r, In r rows /\ levels r col = Raises e.
Proof.
  induction rows as [|r rows IH]; intros s acc e; simpl; [done|].
  destruct (levels r col) as [v|e'] eqn:Ev; simpl.
  - destruct (scan_cell t v r col s acc) as [s1 acc1]. intros Hrun.
    destruct (IH _ _ _ Hrun) as (r' & Hr' & Hlev). exists r'. split; [by right|done].
  - intros [= ->]. exists r. split; [by left|done].
Qed.

Lemma scan_cols_raises t levels cols :
  forall s acc e,
    wf s -> Forall (fun c => (c < num_cols s)%nat) cols -> NoDup cols ->
    scan_cols t levels cols s acc = Raises e ->
    exists r c, (r < num_rows s)%nat /\ In c cols /\ levels r c = Raises e.
Proof.
  induction cols as [|c cols IH]; intros s acc e Hwf Hcols Hnd; simpl; [done|].
  inversion Hcols as [|? ? Hc0 Hcols']; subst.
  inversion Hnd as [|? ? _ Hnd']; subst.
  destruct (scan_rows t levels c (seq 0 (num_rows s)) s acc) as [[s1 acc1]|e1] eqn:Hrows;
    simpl.
  - assert (Hseq : Forall (fun r => (r < num_rows s)%nat) (seq 0 (num_rows s))).
    { apply Forall_forall. intros r Hr. apply elem_of_seq in Hr. lia. }
    destruct (scan_rows_spec _ _ _ _ _ _ _ _ Hwf Hc0 Hseq (NoDup_seq _ _) Hrows)
      as (Hwf1 & (_ & Hr1 & Hc1) & _).
    intros Hrun. destruct (IH s1 acc1 e Hwf1) as (r & c' & Hr & Hc' & Hlev);
      [by rewrite Hc1|done|done|].
    exists r, c'. split; [lia|]. split; [by right|done].
  - intros [= ->]. destruct (scan_rows_raises _ _ _ _ _ _ _ Hrows) as (r & Hr & Hlev).
    apply in_seq in Hr. exists r, c. split; [lia|]. split; [by left|done].
Qed.

(** X3: the list a scan returns names each cell at most once, and only
    cells of the matrix. *)
Theorem scan_keys_distinct_in_matrix s t levels s' keys :
  wf s -> scan s t levels = Returns (s', keys) ->
  NoDup keys /\
  forall r c, In (r, c) keys -> (r < num_rows s)%nat /\ (c < num_cols s)%nat.
Proof.
  intros Hwf Hrun. split.
  - destruct (scan_spec _ _ _ _ _ Hwf Hrun) as (_ & _ & _ & _ & ->).
    apply accepted_presses_NoDup, NoDup_seq.
  - intros r c Hin. by eapply scan_keys_in_range.
Qed.

Lemma scan_keys_distinct_in_matrix_witness :
  NoDup [(0, 0)]%nat /\
  forall r c, In (r, c) [(0, 0)]%nat -> (r < 3)%nat /\ (c < 3)%nat.
Proof.
  apply (scan_keys_distinct_in_matrix (MatrixScanner_init ROW_PINS COL_PINS DEBOUNCE_MS)
           100 (levels_of (only 0 0)) held_00 [(0, 0)]%nat).
  - split; (split; [reflexivity | repeat constructor]).
  - reflexivity.
Defined.

(** X4: a scan made no more than [debounce_ms] after the cell's last
    accepted press leaves the cell alone, whatever its pin reads: state
    and timestamp stay and the cell is not returned. *)
Theorem scan_inside_window_ignores_cell s t levels s' keys r c :
  wf s -> scan s t levels = Returns (s', keys) ->
  t - press_time s r c <= debounce_ms s ->
  pressed s' r c = pressed s r c /\
  press_time s' r c = press_time s r c /\
  ~ In (r, c) keys.
Proof.
  intros Hwf Hrun Hwin.
  destruct (scan_cell_step _ _ _ _ _ r c Hwf Hrun) as (v & Hstep).
  assert (Hlt : (debounce_ms s <? t - press_time s r c) = false) by (apply Z.ltb_ge; lia).
  unfold cell, cell_step in Hstep. rewrite Hlt in Hstep.
  split; [|split].
  - destruct v, (pressed s r c); simpl in Hstep; by inversion Hstep.
  - destruct v, (pressed s r c); simpl in Hstep; by inversion Hstep.
  - intros Hin. apply (scan_keys_accepted _ _ _ _ _ r c Hwf Hrun) in Hin as (_ & _ & Hacc).
    unfold press_accepted in Hacc. rewrite Hlt in Hacc.
    destruct (levels r c) as [[]|]; try done. by rewrite andb_false_r in Hacc.
Qed.

Lemma scan_inside_window_ignores_cell_witness :
  pressed held_00 0 0 = pressed held_00 0 0 /\
  press_time held_00 0 0 = press_time held_00 0 0 /\
  ~ In (0, 0)%nat [].
Proof.
  apply (scan_inside_window_ignores_cell held_00 120 (levels_of all_up) held_00 [] 0 0).
  - split; (split; [reflexivity | repeat constructor]).
  - reflexivity.
  - vm_compute. discriminate.
Defined.

(** X5: once more than [debounce_ms] has passed since the cell's last
    accepted press, a scan makes the stored state of a cell of the matrix
    equal to the level read; the cell is returned exactly when that is a
    change to pressed, and only then does its timestamp become the time
    of the scan. *)
Theorem scan_outside_window_follows_level s t levels s' keys r c v :
  wf s -> scan s t levels = Returns (s', keys) ->
  (r < num_rows s)%nat -> (c < num_cols s)%nat ->
  levels r c = Returns v ->
  debounce_ms s < t - press_time s r c ->
  pressed s' r c = v /\
  press_time s' r c = (if v && negb (pressed s r c) then t else press_time s r c) /\
  (In (r, c) keys <-> v = true /\ pressed s r c = false).
Proof.
  intros Hwf Hrun Hr Hc Hv Hwin.
  destruct (scan_spec _ _ _ _ _ Hwf Hrun) as (_ & _ & Hin & _).
  destruct (Hin r c Hr Hc) as (v' & Hv' & Hstep).
  assert (v' = v) as -> by congruence.
  assert (Hlt : (debounce_ms s <? t - press_time s r c) = true) by (apply Z.ltb_lt; lia).
  unfold cell, cell_step in Hstep. rewrite Hlt in Hstep.
  rewrite (scan_keys_accepted _ _ _ _ _ r c Hwf Hrun).
  unfold press_accepted. rewrite Hv, Hlt.
  destruct v, (pressed s r c); simpl in Hstep |- *; inversion Hstep;
    repeat split; try done; intuition congruence.
Qed.

Lemma scan_outside_window_follows_level_witness :
  pressed released_00 0 0 = false /\
  press_time released_00 0 0 = (if false && negb (pressed held_00 0 0) then 200
                                else press_time held_00 0 0) /\
  (In (0, 0)%nat [] <-> false = true /\ pressed held_00 0 0 = false).
Proof.
  apply (scan_outside_window_follows_level held_00 200 (levels_of all_up) released_00 [] 0 0 false).
  - split; (split; [reflexivity | repeat constructor]).
  - reflexivity.
  - simpl. lia.
  - simpl. lia.
  - reflexivity.
  - vm_compute. reflexivity.
Defined.

(** X6: over any run of scans the timestamp of a cell never goes back
    (for a window that is not negative). *)
Theorem scan_all_press_time_advances passes r c :
  forall s s', wf s -> 0 <= debounce_ms s -> scan_all s passes = Returns s' ->
    press_time s r c <= press_time s' r c.
Proof.
  induction passes as [|[t levels] passes IH]; intros s s' Hwf Hd; simpl.
  - intros [= <-]. lia.
  - destruct (scan s t levels) as [[s1 keys]|e] eqn:Hrun; simpl; [|done].
    destruct (scan_spec _ _ _ _ _ Hwf Hrun) as (Hwf1 & (Hd1 & _) & _).
    destruct (scan_cell_step _ _ _ _ _ r c Hwf Hrun) as (v & Hstep).
    intros Hrest. assert (H1 : press_time s1 r c <= press_time s' r c).
    { apply IH; [done|lia|done]. }
    assert (H0 : press_time s r c <= press_time s1 r c); [|lia].
    unfold cell, cell_step in Hstep.
    destruct v, (pressed s r c); simpl in Hstep;
      destruct (Z.ltb_spec (debounce_ms s) (t - press_time s r c));
      inversion Hstep; lia.
Qed.

Lemma scan_all_press_time_advances_witness :
  press_time (MatrixScanner_init ROW_PINS COL_PINS 20) 0 0 <= press_time released_00 0 0.
Proof.
  apply (scan_all_press_time_advances
           [(100, levels_of (only 0 0)); (200, levels_of all_up)] 0 0
           (MatrixScanner_init ROW_PINS COL_PINS 20) released_00).
  - split; (split; [reflexivity | repeat constructor]).
  - simpl. lia.
  - reflexivity.
Defined.


(** ** Further properties of the encoder *)

Lemma update_reads_ok e p b :
  enabled e = true ->
  update e (Returns p) (Returns b)
  = mkPoll {| enabled := true; last_position := p; last_switch_state := b |}
           (Returns (Z.sgn (p - last_position e), last_switch_state e && negb b))
           [ReadPosition; ReadSwitch].
Proof.
  destruct e as [en pos sw]. simpl. intros ->. unfold update. simpl.
  destruct (Z.ltb_spec pos p); [|destruct (Z.ltb_spec p pos)]; simpl;
    destruct b, sw; simpl; f_equal; try (f_equal; f_equal; lia);
    f_equal; lia.
Qed.

(** X8: a poll of the working encoder whose two reads return stores
    exactly what it read (position and switch level), reports the sign of
    the change of position and reports a click exactly when the switch
    level went from high to low. *)
Theorem update_stores_what_it_reads e p b :
  enabled e = true ->
  poll_state (update e (Returns p) (Returns b))
  = {| enabled := true; last_position := p; last_switch_state := b |} /\
  poll_result (update e (Returns p) (Returns b))
  = Returns (Z.sgn (p - last_position e), last_switch_state e && negb b) /\
  poll_reads (update e (Returns p) (Returns b)) = [ReadPosition; ReadSwitch].
Proof. intros He. by rewrite (update_reads_ok e p b He). Qed.

Lemma update_stores_what_it_reads_witness :
  poll_state (update encoder_ready (Returns 5) (Returns false))
  = {| enabled := true; last_position := 5; last_switch_state := false |} /\
  poll_result (update encoder_ready (Returns 5) (Returns false))
  = Returns (Z.sgn (5 - last_position encoder_ready),
             last_switch_state encoder_ready && negb false) /\
  poll_reads (update encoder_ready (Returns 5) (Returns false)) = [ReadPosition; ReadSwitch].
Proof.
  apply (update_stores_what_it_reads encoder_ready 5 false). reflexivity.
Defined.

(** X9: over any number of polls whose reads return, the working encoder
    reports what [edge_detector] computes from the values read: per poll
    the sign of the position change since the poll before, and a click
    for each change of the switch from high to low and for nothing else
    (no click while the button is held, none on release). *)
Theorem updates_detect_edges reads :
  forall e, enabled e = true ->
    map poll_result
        (updates e (map (fun r => (Returns (fst r), Returns (snd r))) reads))
    = map Returns (edge_detector (last_position e) (last_switch_state e) reads).
Proof.
  induction reads as [|[p b] reads IH]; intros e He; simpl; [done|].
  rewrite (update_reads_ok e p b He). simpl. f_equal.
  by rewrite IH.
Qed.

Lemma updates_detect_edges_witness :
  map poll_result
      (updates encoder_ready
         (map (fun r => (Returns (fst r), Returns (snd r)))
              [(3, false); (3, false); (1, true); (1, false)]))
  = map Returns [(1, true); (0, false); (-1, false); (0, true)].
Proof.
  apply (updates_detect_edges [(3, false); (3, false); (1, true); (1, false)] encoder_ready).
  reflexivity.
Defined.

(** X10: when the read of the switch raises an [Exception] after the
    position was read, the poll still reports the rotation and stores the
    new position, reports no click and keeps the stored switch level, so
    that a press made meanwhile is reported by the next poll that reads
    the switch low. *)
Theorem update_switch_fault_keeps_rotation e p p' :
  enabled e = true ->
  poll_result (update e (Returns p) (Raises PyException))
  = Returns (Z.sgn (p - last_position e), false) /\
  poll_state (update e (Returns p) (Raises PyException))
  = {| enabled := true; last_position := p; last_switch_state := last_switch_state e |} /\
  clicked (update (poll_state (update e (Returns p) (Raises PyException)))
                  (Returns p') (Returns false))
  = Some (last_switch_state e).
Proof.
  intros He.
  assert (Hfault : update e (Returns p) (Raises PyException)
                   = mkPoll {| enabled := true; last_position := p;
                               last_switch_state := last_switch_state e |}
                            (Returns (Z.sgn (p - last_position e), false))
                            [ReadPosition; ReadSwitch]).
  { destruct e as [en pos sw]. simpl in *. subst en. unfold update. simpl.
    destruct (Z.ltb_spec pos p); [|destruct (Z.ltb_spec p pos)]; simpl;
      f_equal; try (f_equal; f_equal; lia); f_equal; lia. }
  rewrite Hfault. simpl. repeat split.
  unfold clicked. rewrite update_reads_ok by done. simpl.
  by rewrite andb_true_r.
Qed.

Lemma update_switch_fault_keeps_rotation_witness :
  poll_result (update encoder_ready (Returns 2) (Raises PyException))
  = Returns (Z.sgn (2 - last_position encoder_ready), false) /\
  poll_state (update encoder_ready (Returns 2) (Raises PyException))
  = {| enabled := true; last_position := 2;
       last_switch_state := last_switch_state encoder_ready |} /\
  clicked (update (poll_state (update encoder_ready (Returns 2) (Raises PyException)))
                  (Returns 2) (Returns false))
  = Some (last_switch_state encoder_ready).
Proof.
  apply (update_switch_fault_keeps_rotation encoder_ready 2 2). reflexivity.
Defined.

(** ** Further properties of the control loop *)

Lemma io_bind_fst {A B : Type} (m : io A) (k : A -> io B) :
  fst (io_bind m k)
  = fst m ++ match snd m with Returns a => fst (k a) | Raises _ => [] end.
Proof.
  destruct m as [l [a|e]]; simpl; [|by rewrite app_nil_r]. by destruct (k a).
Qed.

Lemma io_bind_snd {A B : Type} (m : io A) (k : A -> io B) :
  snd (io_bind m k)
  = match snd m with Returns a => snd (k a) | Raises e => Raises e end.
Proof. destruct m as [l [a|e]]; simpl; [|done]. by destruct (k a). Qed.

(** Pushes [snd] through the binds of the [io] code in the goal. *)
Ltac io_snd :=
  repeat (progress (rewrite ?io_bind_snd; cbn [emit ret lift snd])).

Lemma writes_app fx fx' : writes (fx ++ fx') = writes fx ++ writes fx'.
Proof. unfold writes. apply flat_map_app. Qed.

Lemma frames_none fx : (forall v, ~ In (DisplayShow v) fx) -> frames fx = [].
Proof.
  induction fx as [|[k|v] fx IH]; intros Hno; simpl; [done| |].
  - apply IH. intros v Hv. apply (Hno v). by right.
  - destruct (Hno v). by left.
Qed.

Lemma show_writes d dr v : writes (fst (show d dr v)) = [].
Proof. unfold show. by destruct (display_enabled d), dr as [[]|[]]. Qed.

Lemma show_snd d dr v : interrupts dr = false -> snd (show d dr v) = Returns tt.
Proof. unfold show. by destruct (display_enabled d), dr as [[]|[]]. Qed.

Lemma show_frames d dr v fx :
  In fx (fst (show d dr v)) -> display_enabled d = true.
Proof. unfold show. destruct (display_enabled d), dr as [[]|[]]; simpl; intuition. Qed.

Lemma update_keeps_enabled e position switch :
  enabled (poll_state (update e position switch)) = enabled e.
Proof.
  unfold update. destruct (enabled e) eqn:He; simpl; [|done].
  destruct position as [p|[]]; simpl; try done.
  destruct (last_position e <? p); [|destruct (p <? last_position e)];
    destruct switch as [b|[]]; simpl; try done;
    repeat match goal with |- context [if ?x then _ else _] => destruct x end; done.
Qed.

Lemma same_setup_refl m : same_setup m m.
Proof. by repeat split. Qed.

Lemma same_setup_trans m1 m2 m3 :
  same_setup m1 m2 -> same_setup m2 m3 -> same_setup m1 m3.
Proof. unfold same_setup. intros (?&?&?&?) (?&?&?&?). repeat split; congruence. Qed.

Lemma main_clock_setup m i m' :
  snd (main_clock m i) = Returns m' -> same_setup m m'.
Proof.
  unfold main_clock. destruct (1000 <=? current_time_check i - last_time_update m).
  - rewrite io_bind_snd. destruct (snd (show_time (display m) (draw i))); [|done].
    simpl. intros [= <-]. by repeat split.
  - simpl. intros [= <-]. apply same_setup_refl.
Qed.

Lemma main_keys_setup i keys :
  forall m m', snd (main_keys m i keys) = Returns m' -> same_setup m m'.
Proof.
  induction keys as [|[row col] keys IH]; intros m m'.
  - simpl. intros [= <-]. apply same_setup_refl.
  - rewrite main_keys_cons.
    destruct (current_layer m <? Z.of_nat (length (keymap m))); [|apply IH].
    rewrite io_bind_snd. cbn [lift snd].
    destruct (py_index (keymap m) (current_layer m)) as [layer|]; [|done].
    rewrite io_bind_snd. cbn [lift snd].
    destruct (py_index layer _) as [key|]; [|done].
    rewrite io_bind_snd. cbn [emit snd]. rewrite io_bind_snd.
    destruct (snd (show_status _ _ _ _ _)); [|done].
    intros Hrec. apply IH in Hrec.
    eapply same_setup_trans; [|exact Hrec]. by repeat split.
Qed.

Lemma main_encoder_setup m i m' :
  snd (main_encoder m i) = Returns m' -> same_setup m m'.
Proof.
  rewrite main_encoder_eq, io_bind_snd. cbn [lift snd].
  pose proof (update_keeps_enabled (encoder m) (position i) (switch i)) as Hen.
  destruct (poll_result (update (encoder m) (position i) (switch i)))
    as [[rotation button_pressed]|]; [|done].
  rewrite io_bind_snd.
  set (m0 := set_encoder m _).
  assert (H0 : same_setup m m0) by (by repeat split).
  destruct (0 <? rotation); [|destruct (rotation <? 0)]; io_snd;
    (destruct button_pressed;
     [ io_snd; destruct (snd (show_status _ _ _ _ _)); [|done] | ]);
    cbn [ret snd]; intros [= <-]; by repeat split.
Qed.

Lemma main_tick_setup m i m' :
  snd (main_tick m i) = Returns m' -> same_setup m m'.
Proof.
  unfold main_tick. rewrite io_bind_snd.
  destruct (snd (main_clock m i)) as [m1|] eqn:H1; [|done].
  apply main_clock_setup in H1.
  rewrite io_bind_snd. cbn [lift snd].
  destruct (scan (matrix_scanner m1) (scan_time i) (raw i)) as [[s keys]|]; [|done].
  rewrite io_bind_snd.
  destruct (snd (main_keys (set_matrix_scanner m1 s) i keys)) as [m2|] eqn:H2; [|done].
  apply main_keys_setup in H2. intros H3. apply main_encoder_setup in H3.
  eapply same_setup_trans; [exact H1|].
  eapply same_setup_trans; [|exact H3].
  eapply same_setup_trans; [|exact H2]. by repeat split.
Qed.

Lemma main_loop_setup ticks :
  forall m m', snd (main_loop m ticks) = Returns m' -> same_setup m m'.
Proof.
  induction ticks as [|i ticks IH]; intros m m'; simpl.
  - intros [= <-]. apply same_setup_refl.
  - rewrite io_bind_snd.
    destruct (snd (main_tick m i)) as [m1|] eqn:H1; [|done].
    apply main_tick_setup in H1. intros Hrest. apply IH in Hrest.
    exact (same_setup_trans _ _ _ H1 Hrest).
Qed.

(** X11: no run of the loop that is still going has changed the active
    layer, the keymap, the display controller or the encoder's [enabled]
    flag: the firmware never switches layers, and a device that was
    disabled (or enabled) when the loop started stays so. *)
Theorem main_loop_keeps_setup ticks m m' :
  snd (main_loop m ticks) = Returns m' ->
  current_layer m' = current_layer m /\ keymap m' = keymap m /\
  display m' = display m /\ enabled (encoder m') = enabled (encoder m).
Proof. apply main_loop_setup. Qed.

Lemma main_loop_keeps_setup_witness :
  current_layer (set_current_encoder_value
                   (set_encoder booted {| enabled := true; last_position := 1;
                                          last_switch_state := true |}) 1)
  = current_layer booted /\
  keymap (set_current_encoder_value
            (set_encoder booted {| enabled := true; last_position := 1;
                                   last_switch_state := true |}) 1)
  = keymap booted /\
  display (set_current_encoder_value
             (set_encoder booted {| enabled := true; last_position := 1;
                                    last_switch_state := true |}) 1)
  = display booted /\
  enabled (encoder (set_current_encoder_value
                      (set_encoder booted {| enabled := true; last_position := 1;
                                             last_switch_state := true |}) 1))
  = enabled (encoder booted).
Proof.
  apply (main_loop_keeps_setup [turn_tick 10 1; turn_tick 20 1] booted
           (set_current_encoder_value
              (set_encoder booted {| enabled := true; last_position := 1;
                                     last_switch_state := true |}) 1)).
  reflexivity.
Defined.

Lemma main_clock_frames m i v :
  In (DisplayShow v) (fst (main_clock m i)) -> display_enabled (display m) = true.
Proof.
  unfold main_clock. destruct (1000 <=? current_time_check i - last_time_update m);
    [|intros []].
  intros Hin. apply io_bind_effects in Hin as [Hin|(_ & _ & [])].
  by apply show_frames in Hin.
Qed.

Lemma main_keys_frames i keys v :
  forall m, In (DisplayShow v) (fst (main_keys m i keys)) ->
            display_enabled (display m) = true.
Proof.
  induction keys as [|[row col] keys IH]; intros m; [intros []|].
  rewrite main_keys_cons.
  destruct (current_layer m <? Z.of_nat (length (keymap m))); [|apply IH].
  intros Hin.
  apply io_bind_effects in Hin as [[]|(layer & _ & Hin)].
  apply io_bind_effects in Hin as [[]|(key & _ & Hin)].
  apply io_bind_effects in Hin as [[Hin|[]]|(_ & _ & Hin)]; [discriminate Hin|].
  apply io_bind_effects in Hin as [Hin|(_ & _ & Hin)].
  - by apply show_frames in Hin.
  - by apply IH in Hin.
Qed.

Lemma main_encoder_frames m i v :
  In (DisplayShow v) (fst (main_encoder m i)) -> display_enabled (display m) = true.
Proof.
  rewrite main_encoder_eq. intros Hin.
  apply io_bind_effects in Hin as [[]|([rotation button_pressed] & _ & Hin)].
  apply io_bind_effects in Hin as [Hin|(m1 & Hm1 & Hin)].
  - destruct (0 <? rotation); [|destruct (rotation <? 0)]; simpl in Hin;
      intuition discriminate.
  - assert (Hd : display m1 = display m).
    { destruct (0 <? rotation); [|destruct (rotation <? 0)]; simpl in Hm1;
        by inversion Hm1. }
    destruct button_pressed; [|destruct Hin].
    apply io_bind_effects in Hin as [[Hin|[]]|(_ & _ & Hin)]; [discriminate Hin|].
    apply io_bind_effects in Hin as [Hin|(_ & _ & [])].
    apply show_frames in Hin. by rewrite <- Hd.
Qed.

Lemma main_tick_frames m i v :
  In (DisplayShow v) (fst (main_tick m i)) -> display_enabled (display m) = true.
Proof.
  unfold main_tick. intros Hin.
  apply io_bind_effects in Hin as [Hin|(m1 & H1 & Hin)];
    [by apply main_clock_frames in Hin|].
  apply main_clock_setup in H1 as (_ & _ & Hd1 & _).
  apply io_bind_effects in Hin as [[]|([s keys] & _ & Hin)].
  apply io_bind_effects in Hin as [Hin|(m2 & H2 & Hin)].
  - apply main_keys_frames in Hin. simpl in Hin. by rewrite <- Hd1.
  - apply main_keys_setup in H2 as (_ & _ & Hd2 & _). simpl in Hd2.
    apply main_encoder_frames in Hin. by rewrite <- Hd1, <- Hd2.
Qed.

(** X12: with the display disabled no frame is ever shown, in any run of
    the loop, also one that ends in an exception. *)
Theorem disabled_display_shows_nothing ticks :
  forall m, display_enabled (display m) = false ->
            frames (fst (main_loop m ticks)) = [].
Proof.
  intros m Hoff. apply frames_none. intros v Hin.
  assert (Hon : display_enabled (display m) = true); [|congruence].
  clear Hoff. revert m Hin.
  induction ticks as [|i ticks IH]; intros m Hin; [destruct Hin|].
  simpl in Hin. apply io_bind_effects in Hin as [Hin|(m1 & H1 & Hin)].
  - by apply main_tick_frames in Hin.
  - apply main_tick_setup in H1 as (_ & _ & Hd & _).
    apply IH in Hin. by rewrite <- Hd.
Qed.

Lemma disabled_display_shows_nothing_witness :
  frames (fst (main_loop (main_init encoder_ready {| display_enabled := false |} 0)
                         [idle_tick 1000; key_tick 1500; idle_tick 1700]))
  = [].
Proof.
  apply (disabled_display_shows_nothing [idle_tick 1000; key_tick 1500; idle_tick 1700]).
  reflexivity.
Defined.

(** Pushes [fst], [snd] and [writes] through the binds of the goal. *)
Ltac io_norm :=
  repeat (progress (rewrite ?io_bind_fst, ?io_bind_snd, ?writes_app;
                    cbn [emit ret lift fst snd])).

Lemma main_clock_display m d i i' :
  same_reads i i' -> interrupts (draw i) = false -> interrupts (draw i') = false ->
  writes (fst (main_clock (set_display m d) i')) = writes (fst (main_clock m i)) /\
  snd (main_clock (set_display m d) i')
  = outcome_map (fun m' => set_display m' d) (snd (main_clock m i)).
Proof.
  intros (Ht & _) Hdraw Hdraw'. unfold main_clock, show_time.
  cbn [set_display last_time_update display]. rewrite Ht.
  destruct (1000 <=? current_time_check i - last_time_update m); [|done].
  io_norm. rewrite !show_writes, !show_snd by done. done.
Qed.

Lemma main_keys_display d i i' keys :
  same_reads i i' -> interrupts (draw i) = false -> interrupts (draw i') = false ->
  forall m,
    writes (fst (main_keys (set_display m d) i' keys)) = writes (fst (main_keys m i keys)) /\
    snd (main_keys (set_display m d) i' keys)
    = outcome_map (fun m' => set_display m' d) (snd (main_keys m i keys)).
Proof.
  intros (Ht & _) Hdraw Hdraw'. induction keys as [|[row col] keys IH]; intros m; [done|].
  rewrite !main_keys_cons.
  cbn [set_display current_layer keymap display current_encoder_value]. rewrite Ht.
  destruct (current_layer m <? Z.of_nat (length (keymap m))); [|apply IH].
  io_norm.
  destruct (py_index (keymap m) (current_layer m)) as [layer|]; [|done].
  io_norm.
  destruct (py_index layer _) as [key|]; [|done].
  io_norm. unfold show_status. rewrite !show_writes, !show_snd by done.
  destruct (IH (set_last_time_update (set_last_key_pressed m (Some (KeyRepr key)))
                                     (current_time_check i - 800))) as [Hw Hs].
  split.
  - do 4 f_equal. exact Hw.
  - exact Hs.
Qed.

Lemma main_encoder_display m d i i' :
  same_reads i i' -> interrupts (draw i) = false -> interrupts (draw i') = false ->
  writes (fst (main_encoder (set_display m d) i')) = writes (fst (main_encoder m i)) /\
  snd (main_encoder (set_display m d) i')
  = outcome_map (fun m' => set_display m' d) (snd (main_encoder m i)).
Proof.
  intros (Ht & _ & _ & Hp & Hs) Hdraw Hdraw'. rewrite !main_encoder_eq.
  cbn [set_display encoder]. rewrite Ht, Hp, Hs. io_norm.
  destruct (poll_result (update (encoder m) (position i) (switch i)))
    as [[rotation button_pressed]|]; [|done].
  cbv zeta. io_norm.
  destruct (0 <? rotation); [|destruct (rotation <? 0)]; io_norm;
    destruct button_pressed; io_norm; unfold show_status;
    rewrite ?show_writes, ?show_snd by done; done.
Qed.

Lemma main_tick_display m d i i' :
  same_reads i i' -> interrupts (draw i) = false -> interrupts (draw i') = false ->
  writes (fst (main_tick (set_display m d) i')) = writes (fst (main_tick m i)) /\
  snd (main_tick (set_display m d) i')
  = outcome_map (fun m' => set_display m' d) (snd (main_tick m i)).
Proof.
  intros Hsame Hdraw Hdraw'. unfold main_tick. io_norm.
  destruct (main_clock_display m d i i' Hsame Hdraw Hdraw') as [-> ->].
  destruct (snd (main_clock m i)) as [m1|]; [|done].
  cbn [outcome_map set_display matrix_scanner]. io_norm.
  pose proof Hsame as (_ & -> & -> & _).
  destruct (scan (matrix_scanner m1) (scan_time i) (raw i)) as [[s keys]|]; [|done].
  io_norm.
  change (set_matrix_scanner (set_display m1 d) s)
    with (set_display (set_matrix_scanner m1 s) d).
  destruct (main_keys_display d i i' keys Hsame Hdraw Hdraw' (set_matrix_scanner m1 s))
    as [-> ->].
  destruct (snd (main_keys (set_matrix_scanner m1 s) i keys)) as [m2|]; [|done].
  cbn [outcome_map].
  destruct (main_encoder_display m2 d i i' Hsame Hdraw Hdraw') as [-> ->]. done.
Qed.

Lemma main_loop_display d ticks ticks' :
  redrawn ticks ticks' ->
  forall m,
    writes (fst (main_loop (set_display m d) ticks')) = writes (fst (main_loop m ticks)) /\
    snd (main_loop (set_display m d) ticks')
    = outcome_map (fun m' => set_display m' d) (snd (main_loop m ticks)).
Proof.
  induction 1 as [|i i' ticks ticks' (Hsame & Hdraw & Hdraw') _ IH]; intros m; [done|].
  cbn [main_loop]. io_norm.
  destruct (main_tick_display m d i i' Hsame Hdraw Hdraw') as [-> ->].
  destruct (snd (main_tick m i)) as [m1|]; [|done].
  cbn [outcome_map]. destruct (IH m1) as [-> ->]. done.
Qed.

Lemma redrawn_refl ticks :
  Forall (fun i => interrupts (draw i) = false) ticks -> redrawn ticks ticks.
Proof.
  induction 1 as [|i ticks Hdraw _ IH]; constructor; [|exact IH].
  by repeat split.
Qed.

(** X13: the display does not influence what is sent to the host.  In
    any run in which no drawing call is interrupted, replacing the
    display controller (enabled or disabled) changes neither the keys
    written nor the exception that ends the run, and the final states
    differ in the display controller only. *)
Theorem writes_do_not_depend_on_display d ticks :
  Forall (fun i => interrupts (draw i) = false) ticks ->
  forall m,
    writes (fst (main_loop (set_display m d) ticks)) = writes (fst (main_loop m ticks)) /\
    snd (main_loop (set_display m d) ticks)
    = outcome_map (fun m' => set_display m' d) (snd (main_loop m ticks)).
Proof. intros Hdraw. by apply main_loop_display, redrawn_refl. Qed.

Lemma writes_do_not_depend_on_display_witness :
  writes (fst (main_loop (set_display booted {| display_enabled := false |})
                         [key_tick 1500; turn_tick 1600 1]))
  = writes (fst (main_loop booted [key_tick 1500; turn_tick 1600 1])) /\
  snd (main_loop (set_display booted {| display_enabled := false |})
                 [key_tick 1500; turn_tick 1600 1])
  = outcome_map (fun m' => set_display m' {| display_enabled := false |})
                (snd (main_loop booted [key_tick 1500; turn_tick 1600 1])).
Proof.
  apply (writes_do_not_depend_on_display {| display_enabled := false |}
           [key_tick 1500; turn_tick 1600 1]).
  repeat constructor.
Defined.

Lemma py_index_nth {A : Type} (l : list A) (n : nat) (d : A) :
  (n < length l)%nat -> py_index l (Z.of_nat n) = Returns (nth n l d).
Proof.
  intros Hn. unfold py_index.
  destruct (Z.ltb_spec (Z.of_nat n) 0); [lia|].
  destruct (Z.ltb_spec (Z.of_nat n) 0); [lia|].
  rewrite Nat2Z.id. destruct (l !! n) as [x|] eqn:Hx.
  - f_equal. symmetry. apply nth_lookup_Some with (d := d) in Hx. exact Hx.
  - apply lookup_ge_None in Hx. lia.
Qed.

Lemma py_index_past_end {A : Type} (l : list A) (n : nat) :
  (length l <= n)%nat -> py_index l (Z.of_nat n) = Raises PyException.
Proof.
  intros Hn. unfold py_index.
  destruct (Z.ltb_spec (Z.of_nat n) 0); [lia|].
  destruct (Z.ltb_spec (Z.of_nat n) 0); [lia|].
  rewrite Nat2Z.id. by rewrite (lookup_ge_None_2 l n Hn).
Qed.

Lemma main_keys_layer_spec i layer keys :
  interrupts (draw i) = false ->
  Forall (fun k => (fst k * MATRIX_COLS + snd k < length layer)%nat) keys ->
  forall m,
    current_layer m < Z.of_nat (length (keymap m)) ->
    py_index (keymap m) (current_layer m) = Returns layer ->
    writes (fst (main_keys m i keys))
    = map (fun k => nth (fst k * MATRIX_COLS + snd k) layer KC.NO) keys /\
    exists m', snd (main_keys m i keys) = Returns m' /\
               last_time_update m'
               = match keys with
                 | [] => last_time_update m
                 | _ :: _ => current_time_check i - 800
                 end.
Proof.
  intros Hdraw. induction 1 as [|[row col] keys Hidx Hkeys IH]; intros m Hlt Hlayer.
  { split; [done|]. by exists m. }
  rewrite main_keys_cons. apply Z.ltb_lt in Hlt as Hguard. rewrite Hguard.
  rewrite Hlayer. io_norm. simpl in Hidx.
  rewrite (py_index_nth layer _ KC.NO Hidx). io_norm.
  unfold show_status. rewrite show_writes, show_snd by done.
  destruct (IH (set_last_time_update
                  (set_last_key_pressed m (Some (KeyRepr (nth (row * MATRIX_COLS + col)
                                                              layer KC.NO))))
                  (current_time_check i - 800)) Hlt Hlayer)
    as (Hw & m' & Hres & Htime).
  split.
  - cbn [map fst snd]. rewrite Hw. reflexivity.
  - exists m'. split; [exact Hres|]. rewrite Htime. by destruct keys.
Qed.

Lemma main_encoder_spec m i p b :
  enabled (encoder m) = true ->
  position i = Returns p -> switch i = Returns b ->
  interrupts (draw i) = false ->
  writes (fst (main_encoder m i))
  = (if last_position (encoder m) <? p then [KC.AUDIO_VOL_UP]
     else if p <? last_position (encoder m) then [KC.AUDIO_VOL_DOWN] else [])
    ++ (if last_switch_state (encoder m) && negb b then [KC.AUDIO_MUTE] else []) /\
  exists m',
    snd (main_encoder m i) = Returns m' /\
    current_encoder_value m'
    = current_encoder_value m + Z.sgn (p - last_position (encoder m)) /\
    last_time_update m'
    = if last_switch_state (encoder m) && negb b
      then current_time_check i - 800 else last_time_update m.
Proof.
  intros He Hp Hs Hdraw. rewrite main_encoder_eq, Hp, Hs.
  rewrite (update_reads_ok (encoder m) p b He). cbn [poll_result poll_state].
  io_norm. cbv zeta.
  destruct (Z.ltb_spec (last_position (encoder m)) p) as [Hup|Hnup];
    [replace (Z.sgn (p - last_position (encoder m))) with 1 by lia
    |destruct (Z.ltb_spec p (last_position (encoder m))) as [Hdown|Hndown];
     [replace (Z.sgn (p - last_position (encoder m))) with (-1) by lia
     |replace (Z.sgn (p - last_position (encoder m))) with 0 by lia]];
    cbn [Z.ltb Z.compare]; io_norm;
    destruct (last_switch_state (encoder m) && negb b); io_norm;
    unfold show_status; rewrite ?show_writes, ?show_snd by done;
    (split; [reflexivity|]); eexists; (split; [reflexivity|]);
    cbn [current_encoder_value last_time_update set_last_time_update
         set_current_encoder_value set_encoder];
    split; try reflexivity; lia.
Qed.

Lemma scan_open_returns_nothing s t levels :
  wf s ->
  (forall r c, (r < num_rows s)%nat -> (c < num_cols s)%nat -> levels r c = Returns false) ->
  exists s', scan s t levels = Returns (s', []).
Proof.
  intros Hwf Hopen.
  destruct (scan_total s t levels Hwf) as (s' & keys & Hrun).
  { unfold scan_reads_ok. apply forallb_forall. intros c Hc.
    apply forallb_forall. intros r Hr. apply in_seq in Hc, Hr.
    rewrite Hopen by lia. done. }
  exists s'. rewrite Hrun. do 2 f_equal.
  destruct keys as [|[r c] keys]; [done|].
  assert (Hin : In (r, c) ((r, c) :: keys)) by (by left).
  apply (scan_keys_accepted _ _ _ _ _ r c Hwf Hrun) in Hin as (Hr & Hc & Hacc).
  unfold press_accepted in Hacc. by rewrite (Hopen r c Hr Hc) in Hacc.
Qed.

(** X17: a pass in which every switch of the matrix reads open and the
    encoder poll reports neither rotation nor click shows the clock when
    at least 1000 ms have passed since the clock timestamp (if the
    display is enabled and drawing succeeds) and emits nothing else; it
    writes no key, and it moves the clock timestamp to the time of the
    pass exactly when the clock was due. *)
Theorem idle_pass_only_refreshes_clock m i :
  wf (matrix_scanner m) ->
  (forall r c, (r < num_rows (matrix_scanner m))%nat ->
               (c < num_cols (matrix_scanner m))%nat -> raw i r c = Returns false) ->
  poll_result (update (encoder m) (position i) (switch i)) = Returns (0, false) ->
  interrupts (draw i) = false ->
  fst (main_tick m i)
  = (if (1000 <=? current_time_check i - last_time_update m)
        && display_enabled (display m) && returns (draw i)
     then [DisplayShow Clock] else []) /\
  exists m',
    snd (main_tick m i) = Returns m' /\
    last_time_update m'
    = (if 1000 <=? current_time_check i - last_time_update m
       then current_time_check i else last_time_update m) /\
    current_encoder_value m' = current_encoder_value m.
Proof.
  intros Hwf Hopen Hpoll Hdraw.
  destruct (scan_open_returns_nothing _ (scan_time i) (raw i) Hwf Hopen) as (s' & Hscan).
  unfold main_tick.
  assert (Hclock : exists m1,
             main_clock m i
             = (if (1000 <=? current_time_check i - last_time_update m)
                   && display_enabled (display m) && returns (draw i)
                then [DisplayShow Clock] else [], Returns m1) /\
             matrix_scanner m1 = matrix_scanner m /\ encoder m1 = encoder m /\
             current_encoder_value m1 = current_encoder_value m /\
             last_time_update m1
             = (if 1000 <=? current_time_check i - last_time_update m
                then current_time_check i else last_time_update m)).
  { unfold main_clock, show_time, show.
    destruct (1000 <=? current_time_check i - last_time_update m);
      [|by exists m].
    destruct (display_enabled (display m)), (draw i) as [[]|[]]; try done;
      by eexists. }
  destruct Hclock as (m1 & -> & Hs1 & He1 & Hv1 & Ht1).
  cbn [io_bind]. rewrite Hs1, Hscan. unfold lift. cbn [io_bind main_keys ret].
  rewrite main_encoder_eq. cbn [set_matrix_scanner encoder]. rewrite He1, Hpoll.
  unfold lift. cbn [io_bind]. cbv zeta. rewrite Z.ltb_irrefl. cbn [io_bind ret app].
  rewrite !app_nil_r. split; [reflexivity|].
  eexists. split; [reflexivity|]. cbn. by rewrite Ht1, Hv1.
Qed.

Lemma idle_pass_only_refreshes_clock_witness :
  fst (main_tick booted (idle_tick 1000))
  = (if (1000 <=? current_time_check (idle_tick 1000) - last_time_update booted)
        && display_enabled (display booted) && returns (draw (idle_tick 1000))
     then [DisplayShow Clock] else []) /\
  exists m',
    snd (main_tick booted (idle_tick 1000)) = Returns m' /\
    last_time_update m'
    = (if 1000 <=? current_time_check (idle_tick 1000) - last_time_update booted
       then current_time_check (idle_tick 1000) else last_time_update booted) /\
    current_encoder_value m' = current_encoder_value booted.
Proof.
  apply (idle_pass_only_refreshes_clock booted (idle_tick 1000)).
  - split; (split; [reflexivity | repeat constructor]).
  - reflexivity.
  - reflexivity.
  - reflexivity.
Defined.

Lemma set_display_same m : set_display m (display m) = m.
Proof. by destruct m. Qed.

(** X18: a failure of the drawing code never reaches the host or the
    state.  Two runs over the same clock readings and hardware reads that
    differ only in whether drawing succeeds or raises an [Exception]
    write the same keys, end in the same state or with the same
    exception. *)
Theorem drawing_failures_change_nothing_else ticks ticks' m :
  redrawn ticks ticks' ->
  writes (fst (main_loop m ticks')) = writes (fst (main_loop m ticks)) /\
  snd (main_loop m ticks') = snd (main_loop m ticks).
Proof.
  intros Hre.
  destruct (main_loop_display (display m) ticks ticks' Hre m) as [Hw Hs].
  rewrite set_display_same in Hw, Hs. split; [exact Hw|].
  rewrite Hs. destruct (snd (main_loop m ticks)) as [m'|] eqn:Hrun; [|done].
  apply main_loop_setup in Hrun as (_ & _ & <- & _).
  cbn [outcome_map]. by rewrite set_display_same.
Qed.

Lemma drawing_failures_change_nothing_else_witness :
  writes (fst (main_loop booted
                 [mkTick 1500 1500 (levels_of (only 0 0)) (Returns 1) (Returns false)
                         (Raises PyException)]))
  = writes (fst (main_loop booted
                   [mkTick 1500 1500 (levels_of (only 0 0)) (Returns 1) (Returns false)
                           (Returns tt)])) /\
  snd (main_loop booted
         [mkTick 1500 1500 (levels_of (only 0 0)) (Returns 1) (Returns false)
                 (Raises PyException)])
  = snd (main_loop booted
           [mkTick 1500 1500 (levels_of (only 0 0)) (Returns 1) (Returns false)
                   (Returns tt)]).
Proof.
  apply (drawing_failures_change_nothing_else
           [mkTick 1500 1500 (levels_of (only 0 0)) (Returns 1) (Returns false) (Returns tt)]
           [mkTick 1500 1500 (levels_of (only 0 0)) (Returns 1) (Returns false)
                   (Raises PyException)]
           booted).
  repeat constructor.
Defined.

Lemma main_keys_keeps i keys :
  forall m m', snd (main_keys m i keys) = Returns m' ->
    matrix_scanner m' = matrix_scanner m /\ encoder m' = encoder m /\
    current_encoder_value m' = current_encoder_value m.
Proof.
  induction keys as [|[row col] keys IH]; intros m m'.
  - simpl. by intros [= <-].
  - rewrite main_keys_cons.
    destruct (current_layer m <? Z.of_nat (length (keymap m))); [|apply IH].
    io_snd.
    destruct (py_index (keymap m) (current_layer m)) as [layer|]; [|done].
    io_snd.
    destruct (py_index layer _) as [key|]; [|done].
    io_snd.
    destruct (snd (show_status _ _ _ _ _)); [|done].
    intros Hrec. by apply IH in Hrec.
Qed.

Lemma main_clock_spec m i :
  interrupts (draw i) = false ->
  exists fx m1,
    main_clock m i = (fx, Returns m1) /\ writes fx = [] /\
    matrix_scanner m1 = matrix_scanner m /\ encoder m1 = encoder m /\
    keymap m1 = keymap m /\ current_layer m1 = current_layer m /\
    current_encoder_value m1 = current_encoder_value m.
Proof.
  intros Hdraw. unfold main_clock, show_time, show.
  destruct (1000 <=? current_time_check i - last_time_update m);
    [|by eexists _, _].
  destruct (display_enabled (display m)), (draw i) as [[]|[]]; try done;
    by eexists _, _.
Qed.

Lemma main_tick_spec m i s keys layer p b :
  wf (matrix_scanner m) ->
  scan (matrix_scanner m) (scan_time i) (raw i) = Returns (s, keys) ->
  current_layer m < Z.of_nat (length (keymap m)) ->
  py_index (keymap m) (current_layer m) = Returns layer ->
  (num_rows (matrix_scanner m) * MATRIX_COLS <= length layer)%nat ->
  (num_cols (matrix_scanner m) <= MATRIX_COLS)%nat ->
  enabled (encoder m) = true ->
  position i = Returns p -> switch i = Returns b ->
  interrupts (draw i) = false ->
  writes (fst (main_tick m i))
  = map (fun k => nth (fst k * MATRIX_COLS + snd k) layer KC.NO) keys
    ++ (if last_position (encoder m) <? p then [KC.AUDIO_VOL_UP]
        else if p <? last_position (encoder m) then [KC.AUDIO_VOL_DOWN] else [])
    ++ (if last_switch_state (encoder m) && negb b then [KC.AUDIO_MUTE] else []) /\
  exists m',
    snd (main_tick m i) = Returns m' /\
    matrix_scanner m' = s /\
    current_encoder_value m'
    = current_encoder_value m + Z.sgn (p - last_position (encoder m)).
Proof.
  intros Hwf Hscan Hlt Hlayer Hrows Hcols He Hp Hs Hdraw.
  destruct (main_clock_spec m i Hdraw)
    as (fxc & m1 & Hclock & Hwc & Hs1 & He1 & Hk1 & Hl1 & Hv1).
  assert (Hidx : Forall (fun k => (fst k * MATRIX_COLS + snd k < length layer)%nat) keys).
  { apply Forall_forall. intros [r c] Hin. apply list_elem_of_In in Hin.
    destruct (scan_keys_in_range _ _ _ _ _ r c Hwf Hscan Hin) as [Hr Hc].
    unfold MATRIX_COLS in *. simpl. lia. }
  destruct (main_keys_layer_spec i layer keys Hdraw Hidx (set_matrix_scanner m1 s))
    as (Hwk & m2 & Hkeys & _).
  { cbn [set_matrix_scanner current_layer keymap]. by rewrite Hl1, Hk1. }
  { cbn [set_matrix_scanner current_layer keymap]. by rewrite Hl1, Hk1. }
  destruct (main_keys_keeps _ _ _ _ Hkeys) as (Hs2 & He2 & Hv2).
  cbn [set_matrix_scanner matrix_scanner encoder current_encoder_value] in Hs2, He2, Hv2.
  assert (He2' : encoder m2 = encoder m) by congruence.
  assert (Hen2 : enabled (encoder m2) = true) by (by rewrite He2').
  destruct (main_encoder_spec m2 i p b Hen2 Hp Hs Hdraw) as (Hwe & m3 & Henc & Hv3 & _).
  destruct (main_encoder_total m2 i) as (fx3 & m3' & Henc' & (Hs3 & _)); try done;
    [by rewrite Hp | by rewrite Hs |].
  assert (m3' = m3) as -> by (rewrite Henc' in Henc; by inversion Henc).
  unfold main_tick. io_norm. rewrite Hclock. cbn [fst snd]. rewrite Hwc, Hs1, Hscan.
  io_norm. rewrite Hkeys, Hwk, Hwe, He2'. split; [reflexivity|].
  exists m3. split; [exact Henc|]. split; [congruence|].
  rewrite Hv3, He2'. congruence.
Qed.

(** X20: [__init__] followed by the first poll.  A controller that
    [__init__] built without a fault starts from position 0 and switch
    level high, so its first poll reports the sign of the position the
    hardware already shows and reports a click when the button is held
    down at that moment. *)
Theorem first_poll_after_init hw_encoder hw_switch e p b :
  EncoderController_init hw_encoder hw_switch = Returns e ->
  enabled e = true ->
  hw_encoder = Returns tt /\ hw_switch = Returns tt /\
  poll_result (update e (Returns p) (Returns b)) = Returns (Z.sgn p, negb b).
Proof.
  unfold EncoderController_init. intros Hinit He.
  destruct hw_encoder as [[]|[]]; try done; [|by inversion Hinit; subst].
  destruct hw_switch as [[]|[]]; try done; [|by inversion Hinit; subst].
  inversion Hinit; subst. repeat split.
  rewrite update_reads_ok by done. simpl. by rewrite Z.sub_0_r.
Qed.

Lemma first_poll_after_init_witness :
  Returns tt = Returns tt /\ Returns tt = Returns tt /\
  poll_result (update encoder_ready (Returns (-3)) (Returns false))
  = Returns (Z.sgn (-3), negb false).
Proof.
  apply (first_poll_after_init (Returns tt) (Returns tt) encoder_ready (-3) false);
    reflexivity.
Defined.

(** ** The two levels agree where the unguarded calls return *)

Lemma returns_unit (o : outcome unit) : returns o = true -> o = Returns tt.
Proof. by destruct o as [[]|]. Qed.

Lemma scan_cols_hw_returning t levels x cols :
  forall s acc,
    Forall (fun c => returns (col_high x c) = true /\ returns (settle x c) = true /\
                     returns (col_low x c) = true) cols ->
    scan_cols_hw t levels x cols s acc = scan_cols t levels cols s acc.
Proof.
  induction cols as [|c cols IH]; intros s acc Hcalls; [done|].
  inversion Hcalls as [|? ? (Hh & Hs & Hl) Hrest]; subst.
  cbn [scan_cols_hw scan_cols].
  rewrite (returns_unit _ Hh), (returns_unit _ Hs). cbn [bind].
  destruct (scan_rows t levels c (seq 0 (num_rows s)) s acc) as [[s1 acc1]|e];
    cbn [bind]; [|done].
  rewrite (returns_unit _ Hl). cbn [bind]. by apply IH.
Qed.

Lemma scan_hw_returning s t levels x :
  (forall c, (c < num_cols s)%nat ->
     returns (col_high x c) = true /\ returns (settle x c) = true /\
     returns (col_low x c) = true) ->
  scan_hw s t levels x = scan s t levels.
Proof.
  intros Hcalls. unfold scan_hw, scan. apply scan_cols_hw_returning.
  apply Forall_forall. intros c Hc. apply elem_of_seq in Hc. apply Hcalls. lia.
Qed.

Lemma write_key_returning x k :
  returns (key_write x k) = true -> write_key x k = emit (KeyboardWrite k).
Proof. unfold write_key. by destruct (key_write x k). Qed.

Lemma main_keys_hw_returning x i keys :
  (forall k, returns (key_write x k) = true) ->
  forall m, main_keys_hw x m i keys = main_keys m i keys.
Proof.
  intros Hw. induction keys as [|[row col] keys IH]; intros m; [done|].
  rewrite main_keys_cons. cbn [main_keys_hw].
  destruct (current_layer m <? Z.of_nat (length (keymap m))); [|apply IH].
  destruct (py_index (keymap m) (current_layer m)) as [layer|]; [|done].
  unfold lift at 1 3. cbn [io_bind].
  destruct (py_index layer _) as [key|]; [|done].
  unfold lift. cbn [io_bind].
  rewrite (write_key_returning x key (Hw key)). unfold emit. cbn [io_bind].
  destruct (show_status _ _ _ _ _) as [fxs [[]|e]]; cbn [io_bind]; [|done].
  by rewrite IH.
Qed.

Lemma main_encoder_hw_returning x m i :
  (forall k, returns (key_write x k) = true) ->
  main_encoder_hw x m i = main_encoder m i.
Proof.
  intros Hw. unfold main_encoder_hw, main_encoder.
  by rewrite !write_key_returning.
Qed.

Lemma main_clock_scanner m i m1 :
  snd (main_clock m i) = Returns m1 -> matrix_scanner m1 = matrix_scanner m.
Proof.
  unfold main_clock. destruct (1000 <=? current_time_check i - last_time_update m).
  - rewrite io_bind_snd. destruct (snd (show_time (display m) (draw i))); [|done].
    cbn [ret snd]. by intros [= <-].
  - cbn [ret snd]. by intros [= <-].
Qed.

Lemma main_tick_hw_returning x m i :
  calls_return (num_cols (matrix_scanner m)) x ->
  main_tick_hw x m i = main_tick m i.
Proof.
  intros (Hcols & Hw & Hsleep). unfold main_tick_hw, main_tick.
  destruct (main_clock m i) as [fx1 [m1|e1]] eqn:Hclock; cbn [io_bind]; [|done].
  assert (Hs1 : matrix_scanner m1 = matrix_scanner m).
  { apply (main_clock_scanner m i). by rewrite Hclock. }
  rewrite scan_hw_returning by (by rewrite Hs1).
  destruct (scan (matrix_scanner m1) (scan_time i) (raw i)) as [[s keys]|e];
    unfold lift; cbn [io_bind]; [|done].
  rewrite main_keys_hw_returning by done.
  destruct (main_keys (set_matrix_scanner m1 s) i keys) as [fx2 [m2|e2]];
    cbn [io_bind]; [|done].
  rewrite main_encoder_hw_returning by done.
  destruct (main_encoder m2 i) as [fx3 [m3|e3]]; cbn [io_bind]; [|done].
  rewrite (returns_unit _ Hsleep). cbn [io_bind ret]. by rewrite !app_nil_r.
Qed.



(** Outside these conditions the loop ends: a [keyboard.write] that
    raises, a column write that raises and an interrupt during the
    closing sleep each leave [main] and reach the outermost handler. *)
Lemma unguarded_call_ends_loop :
  run_hw booted
    [(key_tick 1500,
      mkCalls (fun _ => Returns tt) (fun _ => Returns tt) (fun _ => Returns tt)
              (fun _ => Raises PyException) (Returns tt));
     (idle_tick 3000, returning)]
  = ([DisplayShow Clock], UnexpectedError) /\
  run_hw booted
    [(idle_tick 1500,
      mkCalls (fun _ => Raises PyException) (fun _ => Returns tt) (fun _ => Returns tt)
              (fun _ => Returns tt) (Returns tt));
     (idle_tick 3000, returning)]
  = ([DisplayShow Clock], UnexpectedError) /\
  run_hw booted
    [(idle_tick 1500,
      mkCalls (fun _ => Returns tt) (fun _ => Returns tt) (fun _ => Returns tt)
              (fun _ => Returns tt) (Raises KeyboardInterrupt));
     (idle_tick 3000, returning)]
  = ([DisplayShow Clock], Interrupted).
Proof. repeat split. Qed.

(** ** Properties of the scan and of the pass in full *)

Lemma scan_cols_hw_returns t levels x cols :
  forall s acc s' acc',
    wf s -> Forall (fun c => (c < num_cols s)%nat) cols -> NoDup cols ->
    scan_cols_hw t levels x cols s acc = Returns (s', acc') ->
    scan_cols t levels cols s acc = Returns (s', acc') /\
    forallb (fun c => returns (col_high x c) && returns (settle x c)
                      && forallb (fun r => returns (levels r c)) (seq 0 (num_rows s))
                      && returns (col_low x c)) cols = true.
Proof.
  induction cols as [|c cols IH]; intros s acc s' acc' Hwf Hcols Hnd; [done|].
  inversion Hcols as [|? ? Hc0 Hcols']; subst.
  inversion Hnd as [|? ? _ Hnd']; subst.
  cbn [scan_cols_hw scan_cols forallb].
  destruct (col_high x c) as [[]|]; cbn [bind returns]; [|done].
  destruct (settle x c) as [[]|]; cbn [bind returns]; [|done].
  destruct (scan_rows t levels c (seq 0 (num_rows s)) s acc) as [[s1 acc1]|e] eqn:Hrows;
    cbn [bind]; [|done].
  destruct (col_low x c) as [[]|]; cbn [bind returns]; [|done].
  assert (Hseq : Forall (fun r => (r < num_rows s)%nat) (seq 0 (num_rows s))).
  { apply Forall_forall. intros r Hr. apply elem_of_seq in Hr. lia. }
  destruct (scan_rows_spec _ _ _ _ _ _ _ _ Hwf Hc0 Hseq (NoDup_seq _ _) Hrows)
    as (Hwf1 & (_ & Hr1 & Hc1) & Hin & _).
  intros Hrun. destruct (IH s1 acc1 s' acc' Hwf1) as [Hsame Hok];
    [by rewrite Hc1|done|done|].
  split; [done|]. rewrite Hr1 in Hok. rewrite Hok, andb_true_r. cbn [andb].
  rewrite andb_true_r. apply forallb_forall. intros r Hr.
  destruct (Hin r Hr) as (v & -> & _). done.
Qed.

Lemma scan_cols_hw_raises t levels x cols :
  forall s acc e,
    wf s -> Forall (fun c => (c < num_cols s)%nat) cols -> NoDup cols ->
    scan_cols_hw t levels x cols s acc = Raises e ->
    exists c, In c cols /\
      (col_high x c = Raises e \/ settle x c = Raises e \/ col_low x c = Raises e \/
       exists r, (r < num_rows s)%nat /\ levels r c = Raises e).
Proof.
  induction cols as [|c cols IH]; intros s acc e Hwf Hcols Hnd; [done|].
  inversion Hcols as [|? ? Hc0 Hcols']; subst.
  inversion Hnd as [|? ? _ Hnd']; subst.
  cbn [scan_cols_hw].
  destruct (col_high x c) as [[]|e1] eqn:Hh; cbn [bind];
    [|intros [= ->]; exists c; split; [by left|by left]].
  destruct (settle x c) as [[]|e2] eqn:Hs; cbn [bind];
    [|intros [= ->]; exists c; split; [by left|right; by left]].
  destruct (scan_rows t levels c (seq 0 (num_rows s)) s acc) as [[s1 acc1]|e3] eqn:Hrows;
    cbn [bind].
  - destruct (col_low x c) as [[]|e4] eqn:Hl; cbn [bind];
      [|intros [= ->]; exists c; split; [by left|right; right; by left]].
    assert (Hseq : Forall (fun r => (r < num_rows s)%nat) (seq 0 (num_rows s))).
    { apply Forall_forall. intros r Hr. apply elem_of_seq in Hr. lia. }
    destruct (scan_rows_spec _ _ _ _ _ _ _ _ Hwf Hc0 Hseq (NoDup_seq _ _) Hrows)
      as (Hwf1 & (_ & Hr1 & Hc1) & _).
    intros Hrun. destruct (IH s1 acc1 e Hwf1) as (c' & Hc' & Hcase);
      [by rewrite Hc1|done|done|].
    exists c'. split; [by right|]. by rewrite <- Hr1.
  - intros [= ->]. destruct (scan_rows_raises _ _ _ _ _ _ _ Hrows) as (r & Hr & Hlev).
    apply in_seq in Hr. exists c. split; [by left|]. do 3 right. exists r. split; [lia|done].
Qed.

(** X2: the scan in full returns exactly when every call it makes returns
    (for each column the write that drives it high, the sleep, the read
    of every row pin and the write that drives it low); what it then
    returns is what [scan] returns from the same reads; and an exception
    it raises is the one raised by one of these calls, for it has no
    handler of its own. *)
Theorem scan_hw_returns_iff_calls_return s t levels x :
  wf s ->
  ((exists s' keys, scan_hw s t levels x = Returns (s', keys)) <->
   scan_calls_ok (num_rows s) (num_cols s) levels x = true) /\
  (forall s' keys, scan_hw s t levels x = Returns (s', keys) ->
                   scan s t levels = Returns (s', keys)) /\
  (forall e, scan_hw s t levels x = Raises e ->
             exists c, (c < num_cols s)%nat /\
               (col_high x c = Raises e \/ settle x c = Raises e \/
                col_low x c = Raises e \/
                exists r, (r < num_rows s)%nat /\ levels r c = Raises e)).
Proof.
  intros Hwf.
  assert (Hseq : Forall (fun c => (c < num_cols s)%nat) (seq 0 (num_cols s))).
  { apply Forall_forall. intros c Hc. apply elem_of_seq in Hc. lia. }
  split; [split|split].
  - intros (s' & keys & Hrun).
    by destruct (scan_cols_hw_returns _ _ _ _ _ _ _ _ Hwf Hseq (NoDup_seq _ _) Hrun).
  - intros Hok. unfold scan_calls_ok in Hok.
    rewrite scan_hw_returning.
    + apply scan_total; [done|]. unfold scan_reads_ok.
      apply forallb_forall. intros c Hc.
      rewrite forallb_forall in Hok. specialize (Hok c Hc).
      apply andb_prop in Hok as [Hok _]. by apply andb_prop in Hok as [_ Hok].
    + intros c Hc. rewrite forallb_forall in Hok.
      specialize (Hok c). rewrite in_seq in Hok.
      destruct (andb_prop _ _ (Hok ltac:(lia))) as [H1 Hl].
      apply andb_prop in H1 as [H1 _]. by apply andb_prop in H1 as [Hh Hs].
  - intros s' keys Hrun.
    by destruct (scan_cols_hw_returns _ _ _ _ _ _ _ _ Hwf Hseq (NoDup_seq _ _) Hrun).
  - intros e Hrun.
    destruct (scan_cols_hw_raises _ _ _ _ _ _ _ Hwf Hseq (NoDup_seq _ _) Hrun)
      as (c & Hc & Hcase).
    apply in_seq in Hc. exists c. split; [lia|done].
Qed.

Lemma scan_hw_returns_iff_calls_return_witness :
  ((exists s' keys,
      scan_hw held_00 200 (levels_of all_up)
              (mkCalls (fun _ => Returns tt) (fun c => if Nat.eqb c 1 then Raises KeyboardInterrupt
                                                       else Returns tt)
                       (fun _ => Returns tt) (fun _ => Returns tt) (Returns tt))
      = Returns (s', keys)) <->
   scan_calls_ok 3 3 (levels_of all_up)
                 (mkCalls (fun _ => Returns tt) (fun c => if Nat.eqb c 1 then Raises KeyboardInterrupt
                                                          else Returns tt)
                          (fun _ => Returns tt) (fun _ => Returns tt) (Returns tt))
   = true) /\
  (forall s' keys,
     scan_hw held_00 200 (levels_of all_up)
             (mkCalls (fun _ => Returns tt) (fun c => if Nat.eqb c 1 then Raises KeyboardInterrupt
                                                      else Returns tt)
                      (fun _ => Returns tt) (fun _ => Returns tt) (Returns tt))
     = Returns (s', keys) ->
     scan held_00 200 (levels_of all_up) = Returns (s', keys)) /\
  (forall e,
     scan_hw held_00 200 (levels_of all_up)
             (mkCalls (fun _ => Returns tt) (fun c => if Nat.eqb c 1 then Raises KeyboardInterrupt
                                                      else Returns tt)
                      (fun _ => Returns tt) (fun _ => Returns tt) (Returns tt))
     = Raises e ->
     exists c, (c < 3)%nat /\
       (Returns tt = Raises e \/
        (if Nat.eqb c 1 then Raises KeyboardInterrupt else Returns tt) = Raises e \/
        Returns tt = Raises e \/
        exists r, (r < 3)%nat /\ levels_of all_up r c = Raises e)).
Proof.
  apply (scan_hw_returns_iff_calls_return held_00 200 (levels_of all_up)
           (mkCalls (fun _ => Returns tt) (fun c => if Nat.eqb c 1 then Raises KeyboardInterrupt
                                                    else Returns tt)
                    (fun _ => Returns tt) (fun _ => Returns tt) (Returns tt))).
  split; (split; [reflexivity | repeat constructor]).
Defined.

(** X14: with the active layer inside the keymap, every index
    [row * MATRIX_COLS + col] inside the layer, every [keyboard.write]
    returning and no drawing call interrupted by [KeyboardInterrupt],
    the loop over the pressed keys writes, in the order of the list, the
    entry of the layer at that index for each cell; it then completes,
    and once it has handled a key the clock timestamp stands at the time
    of the pass minus 800 ms. *)
Theorem main_keys_hw_writes_layer_entries x i layer keys m :
  (forall k, returns (key_write x k) = true) ->
  interrupts (draw i) = false ->
  Forall (fun k => (fst k * MATRIX_COLS + snd k < length layer)%nat) keys ->
  current_layer m < Z.of_nat (length (keymap m)) ->
  py_index (keymap m) (current_layer m) = Returns layer ->
  writes (fst (main_keys_hw x m i keys)) = map (layer_entry layer) keys /\
  exists m', snd (main_keys_hw x m i keys) = Returns m' /\
             last_time_update m'
             = match keys with
               | [] => last_time_update m
               | _ :: _ => current_time_check i - 800
               end.
Proof.
  intros Hw Hdraw Hkeys Hlt Hlayer. rewrite main_keys_hw_returning by done.
  by apply main_keys_layer_spec.
Qed.

Lemma main_keys_hw_writes_layer_entries_witness :
  writes (fst (main_keys_hw returning booted (key_tick 1500) [(0, 0); (2, 1)]%nat))
  = map (layer_entry
           [KC.MEDIA_PREV_TRACK; KC.MEDIA_PLAY_PAUSE; KC.MEDIA_NEXT_TRACK;
            KC.BRIGHTNESS_DOWN; KC.NO; KC.BRIGHTNESS_UP;
            KC.LCTRL (KC.LALT KC.M); KC.LCTRL (KC.LALT KC.D);
            KC.LCTRL (KC.LALT KC.SLASH)])
        [(0, 0); (2, 1)]%nat /\
  exists m', snd (main_keys_hw returning booted (key_tick 1500) [(0, 0); (2, 1)]%nat)
             = Returns m' /\
             last_time_update m' = current_time_check (key_tick 1500) - 800.
Proof.
  apply (main_keys_hw_writes_layer_entries returning (key_tick 1500)
           [KC.MEDIA_PREV_TRACK; KC.MEDIA_PLAY_PAUSE; KC.MEDIA_NEXT_TRACK;
            KC.BRIGHTNESS_DOWN; KC.NO; KC.BRIGHTNESS_UP;
            KC.LCTRL (KC.LALT KC.M); KC.LCTRL (KC.LALT KC.D);
            KC.LCTRL (KC.LALT KC.SLASH)]
           [(0, 0); (2, 1)]%nat booted).
  - reflexivity.
  - reflexivity.
  - repeat constructor; simpl; lia.
  - reflexivity.
  - reflexivity.
Defined.

(** X16: with the encoder working, its two reads returning, every
    [keyboard.write] returning and no drawing call interrupted by
    [KeyboardInterrupt], the encoder branch of a pass writes one volume
    key when the position changed (up when it grew, down when it fell,
    whatever the size of the jump), then the mute key when the switch
    went from high to low; the counter moves by the sign of the position
    change, and the clock timestamp is rewound to the time of the pass
    minus 800 ms exactly on a click. *)
Theorem main_encoder_hw_writes x m i p b :
  (forall k, returns (key_write x k) = true) ->
  enabled (encoder m) = true ->
  position i = Returns p -> switch i = Returns b ->
  interrupts (draw i) = false ->
  writes (fst (main_encoder_hw x m i))
  = (if last_position (encoder m) <? p then [KC.AUDIO_VOL_UP]
     else if p <? last_position (encoder m) then [KC.AUDIO_VOL_DOWN] else [])
    ++ (if last_switch_state (encoder m) && negb b then [KC.AUDIO_MUTE] else []) /\
  exists m',
    snd (main_encoder_hw x m i) = Returns m' /\
    current_encoder_value m'
    = current_encoder_value m + Z.sgn (p - last_position (encoder m)) /\
    last_time_update m'
    = if last_switch_state (encoder m) && negb b
      then current_time_check i - 800 else last_time_update m.
Proof.
  intros Hw. rewrite main_encoder_hw_returning by done. apply main_encoder_spec.
Qed.

Lemma main_encoder_hw_writes_witness :
  writes (fst (main_encoder_hw returning booted
                 (mkTick 100 100 (levels_of all_up) (Returns 4) (Returns false) (Returns tt))))
  = (if last_position (encoder booted) <? 4 then [KC.AUDIO_VOL_UP]
     else if 4 <? last_position (encoder booted) then [KC.AUDIO_VOL_DOWN] else [])
    ++ (if last_switch_state (encoder booted) && negb false then [KC.AUDIO_MUTE] else []) /\
  exists m',
    snd (main_encoder_hw returning booted
           (mkTick 100 100 (levels_of all_up) (Returns 4) (Returns false) (Returns tt)))
    = Returns m' /\
    current_encoder_value m'
    = current_encoder_value booted + Z.sgn (4 - last_position (encoder booted)) /\
    last_time_update m'
    = if last_switch_state (encoder booted) && negb false
      then 100 - 800 else last_time_update booted.
Proof.
  apply (main_encoder_hw_writes returning booted
           (mkTick 100 100 (levels_of all_up) (Returns 4) (Returns false) (Returns tt))
           4 false); reflexivity.
Defined.

(** X19: how a pass composes.  When the scan of the pass returns the
    list [keys], every other call made outside a [try] block returns
    (the [keyboard.write]s and the closing sleep), no drawing call is
    interrupted by [KeyboardInterrupt], the active layer is inside the
    keymap and long enough for the matrix, and the encoder works and is
    read successfully, the pass writes to the host first the layer entry
    of every returned cell, in scan order, then the volume key for a
    change of position, then the mute key for a click; it returns with
    the scanner the scan produced and with the counter moved by the sign
    of the position change. *)
Theorem pass_hw_writes_keys_then_encoder x m i s keys layer p b :
  wf (matrix_scanner m) ->
  calls_return (num_cols (matrix_scanner m)) x ->
  scan_hw (matrix_scanner m) (scan_time i) (raw i) x = Returns (s, keys) ->
  current_layer m < Z.of_nat (length (keymap m)) ->
  py_index (keymap m) (current_layer m) = Returns layer ->
  (num_rows (matrix_scanner m) * MATRIX_COLS <= length layer)%nat ->
  (num_cols (matrix_scanner m) <= MATRIX_COLS)%nat ->
  enabled (encoder m) = true ->
  position i = Returns p -> switch i = Returns b ->
  interrupts (draw i) = false ->
  writes (fst (main_tick_hw x m i))
  = map (layer_entry layer) keys
    ++ (if last_position (encoder m) <? p then [KC.AUDIO_VOL_UP]
        else if p <? last_position (encoder m) then [KC.AUDIO_VOL_DOWN] else [])
    ++ (if last_switch_state (encoder m) && negb b then [KC.AUDIO_MUTE] else []) /\
  exists m',
    snd (main_tick_hw x m i) = Returns m' /\
    matrix_scanner m' = s /\
    current_encoder_value m'
    = current_encoder_value m + Z.sgn (p - last_position (encoder m)).
Proof.
  intros Hwf Hcalls Hscan. rewrite (main_tick_hw_returning x m i Hcalls).
  rewrite scan_hw_returning in Hscan by apply Hcalls.
  by apply main_tick_spec.
Qed.

Lemma pass_hw_writes_keys_then_encoder_witness :
  writes (fst (main_tick_hw returning booted
                 (mkTick 1500 1500 (levels_of (only 0 0)) (Returns 1) (Returns false)
                         (Returns tt))))
  = map (layer_entry
           [KC.MEDIA_PREV_TRACK; KC.MEDIA_PLAY_PAUSE; KC.MEDIA_NEXT_TRACK;
            KC.BRIGHTNESS_DOWN; KC.NO; KC.BRIGHTNESS_UP;
            KC.LCTRL (KC.LALT KC.M); KC.LCTRL (KC.LALT KC.D);
            KC.LCTRL (KC.LALT KC.SLASH)]) [(0, 0)]%nat
    ++ (if last_position (encoder booted) <? 1 then [KC.AUDIO_VOL_UP]
        else if 1 <? last_position (encoder booted) then [KC.AUDIO_VOL_DOWN] else [])
    ++ (if last_switch_state (encoder booted) && negb false then [KC.AUDIO_MUTE] else []) /\
  exists m',
    snd (main_tick_hw returning booted
           (mkTick 1500 1500 (levels_of (only 0 0)) (Returns 1) (Returns false)
                   (Returns tt)))
    = Returns m' /\
    matrix_scanner m'
    = mkMatrixScanner 20 3 3
        [[true; false; false]; [false; false; false]; [false; false; false]]
        [[1500; 0; 0]; [0; 0; 0]; [0; 0; 0]] /\
    current_encoder_value m'
    = current_encoder_value booted + Z.sgn (1 - last_position (encoder booted)).
Proof.
  apply (pass_hw_writes_keys_then_encoder returning booted
           (mkTick 1500 1500 (levels_of (only 0 0)) (Returns 1) (Returns false) (Returns tt))
           (mkMatrixScanner 20 3 3
              [[true; false; false]; [false; false; false]; [false; false; false]]
              [[1500; 0; 0]; [0; 0; 0]; [0; 0; 0]])
           [(0, 0)]%nat
           [KC.MEDIA_PREV_TRACK; KC.MEDIA_PLAY_PAUSE; KC.MEDIA_NEXT_TRACK;
            KC.BRIGHTNESS_DOWN; KC.NO; KC.BRIGHTNESS_UP;
            KC.LCTRL (KC.LALT KC.M); KC.LCTRL (KC.LALT KC.D);
            KC.LCTRL (KC.LALT KC.SLASH)]
           1 false).
  - split; (split; [reflexivity | repeat constructor]).
  - repeat split.
  - reflexivity.
  - reflexivity.
  - reflexivity.
  - vm_compute. lia.
  - vm_compute. lia.
  - reflexivity.
  - reflexivity.
  - reflexivity.
  - reflexivity.
Defined.

Lemma main_keys_raises_at i layer row col after before :
  interrupts (draw i) = false ->
  (length layer <= row * MATRIX_COLS + col)%nat ->
  Forall (fun k => (fst k * MATRIX_COLS + snd k < length layer)%nat) before ->
  forall m,
    current_layer m < Z.of_nat (length (keymap m)) ->
    py_index (keymap m) (current_layer m) = Returns layer ->
    exists fx,
      main_keys m i (before ++ (row, col) :: after) = (fx, Raises PyException) /\
      writes fx = map (layer_entry layer) before.
Proof.
  intros Hdraw Hshort. induction 1 as [|[r c] before Hidx Hbefore IH]; intros m Hlt Hlayer.
  - exists []. split; [|done]. cbn [app]. rewrite main_keys_cons.
    apply Z.ltb_lt in Hlt. rewrite Hlt, Hlayer. unfold lift. cbn [io_bind].
    by rewrite (py_index_past_end layer _ Hshort).
  - cbn [app]. rewrite main_keys_cons. apply Z.ltb_lt in Hlt as Hguard.
    rewrite Hguard, Hlayer. unfold lift. cbn [io_bind]. simpl in Hidx.
    rewrite (py_index_nth layer _ KC.NO Hidx). unfold emit. cbn [io_bind].
    destruct (show_total (display m) (draw i)
                (Status (current_layer m) (current_encoder_value m)
                        (Some (KeyRepr (nth (r * MATRIX_COLS + c) layer KC.NO)))) Hdraw)
      as (fxs & Hshow).
    pose proof (show_writes (display m) (draw i)
                  (Status (current_layer m) (current_encoder_value m)
                          (Some (KeyRepr (nth (r * MATRIX_COLS + c) layer KC.NO))))) as Hws.
    rewrite Hshow in Hws. cbn [fst] in Hws.
    unfold show_status. cbn [set_last_key_pressed display current_layer
                             current_encoder_value last_key_pressed].
    rewrite Hshow. cbn [io_bind].
    destruct (IH (set_last_time_update
                    (set_last_key_pressed m (Some (KeyRepr (nth (r * MATRIX_COLS + c)
                                                                layer KC.NO))))
                    (current_time_check i - 800)) Hlt Hlayer) as (fx & Hrec & Hwfx).
    rewrite Hrec. eexists. split; [reflexivity|].
    rewrite !writes_app, Hws, Hwfx. reflexivity.
Qed.

(** X15: a layer too short for a pressed cell ends the firmware.  When
    the scan of a pass returns a cell whose index
    [row * MATRIX_COLS + col] lies past the end of the active layer,
    after cells whose indices are inside it, then (every
    [keyboard.write] returning and no drawing call being interrupted)
    the pass writes the keys of the cells before it and raises
    [IndexError] at that cell, writing nothing for it or for the cells
    after it; neither the scan loop nor [main] catches the exception, so
    the run ends there in the outermost handler, whatever passes would
    follow. *)
Theorem short_layer_ends_firmware x m i s before row col after layer ticks :
  (forall k, returns (key_write x k) = true) ->
  interrupts (draw i) = false ->
  scan_hw (matrix_scanner m) (scan_time i) (raw i) x
  = Returns (s, before ++ (row, col) :: after) ->
  current_layer m < Z.of_nat (length (keymap m)) ->
  py_index (keymap m) (current_layer m) = Returns layer ->
  Forall (fun k => (fst k * MATRIX_COLS + snd k < length layer)%nat) before ->
  (length layer <= row * MATRIX_COLS + col)%nat ->
  exists fx,
    main_tick_hw x m i = (fx, Raises PyException) /\
    writes fx = map (layer_entry layer) before /\
    run_hw m ((i, x) :: ticks) = (fx, UnexpectedError).
Proof.
  intros Hw Hdraw Hscan Hlt Hlayer Hbefore Hshort.
  destruct (main_clock_spec m i Hdraw)
    as (fxc & m1 & Hclock & Hwc & Hs1 & _ & Hk1 & Hl1 & _).
  destruct (main_keys_raises_at i layer row col after before Hdraw Hshort Hbefore
              (set_matrix_scanner m1 s)) as (fxk & Hkeys & Hwk).
  { cbn [set_matrix_scanner current_layer keymap]. by rewrite Hl1, Hk1. }
  { cbn [set_matrix_scanner current_layer keymap]. by rewrite Hl1, Hk1. }
  assert (Htick : main_tick_hw x m i = (fxc ++ fxk, Raises PyException)).
  { unfold main_tick_hw. rewrite Hclock. cbn [io_bind]. rewrite Hs1, Hscan.
    unfold lift. cbn [io_bind]. rewrite main_keys_hw_returning by done.
    rewrite Hkeys. cbn [io_bind app]. reflexivity. }
  exists (fxc ++ fxk). split; [exact Htick|]. split.
  - by rewrite writes_app, Hwc, Hwk.
  - unfold run_hw. cbn [main_loop_hw]. rewrite Htick. reflexivity.
Qed.

Lemma short_layer_ends_firmware_witness :
  exists fx,
    main_tick_hw returning
      (mkMain (MatrixScanner_init ROW_PINS COL_PINS DEBOUNCE_MS) encoder_ready
              {| display_enabled := true |}
              [[KC.MEDIA_PREV_TRACK; KC.MEDIA_PLAY_PAUSE]] 0 0 None 0)
      (mkTick 500 500 (levels_of (fun r c => Nat.eqb c 0 && Nat.leb r 1))
              (Returns 0) (Returns true) (Returns tt))
    = (fx, Raises PyException) /\
    writes fx = map (layer_entry [KC.MEDIA_PREV_TRACK; KC.MEDIA_PLAY_PAUSE]) [(0, 0)]%nat /\
    run_hw (mkMain (MatrixScanner_init ROW_PINS COL_PINS DEBOUNCE_MS) encoder_ready
                   {| display_enabled := true |}
                   [[KC.MEDIA_PREV_TRACK; KC.MEDIA_PLAY_PAUSE]] 0 0 None 0)
           [(mkTick 500 500 (levels_of (fun r c => Nat.eqb c 0 && Nat.leb r 1))
                    (Returns 0) (Returns true) (Returns tt), returning);
            (idle_tick 3000, returning)]
    = (fx, UnexpectedError).
Proof.
  apply (short_layer_ends_firmware returning
           (mkMain (MatrixScanner_init ROW_PINS COL_PINS DEBOUNCE_MS) encoder_ready
                   {| display_enabled := true |}
                   [[KC.MEDIA_PREV_TRACK; KC.MEDIA_PLAY_PAUSE]] 0 0 None 0)
           (mkTick 500 500 (levels_of (fun r c => Nat.eqb c 0 && Nat.leb r 1))
                   (Returns 0) (Returns true) (Returns tt))
           (mkMatrixScanner 20 3 3
              [[true; false; false]; [true; false; false]; [false; false; false]]
              [[500; 0; 0]; [500; 0; 0]; [0; 0; 0]])
           [(0, 0)]%nat 1 0 [] [KC.MEDIA_PREV_TRACK; KC.MEDIA_PLAY_PAUSE]
           [(idle_tick 3000, returning)]).
  - reflexivity.
  - reflexivity.
  - reflexivity.
  - reflexivity.
  - reflexivity.
  - repeat constructor; simpl; lia.
  - simpl. lia.
Defined.
